(** * Success World: the SQLAlchemy models of [models.py]

    The module declares four mapped classes ([User], [Course], [Video],
    [VideoCourse]) and two class methods on [User] ([signup] and
    [authenticate]).  The classes are embedded as data, statement by
    statement; the storage engine and the ORM session that interpret
    them are embedded as functions over an explicit store; the two
    Flask-Bcrypt calls are parameters of a section together with the
    contract the proofs rely on. *)

From Stdlib Require Import ZArith Lia Ascii String.
From Stdlib Require Import DecimalString DecimalZ DecimalPos.
From stdpp Require Import base option list gmap strings fin_maps.

Open Scope string_scope.
Open Scope Z_scope.
Open Scope list_scope.

(** ** Values held by attributes and columns *)

(** A Python value as it occurs in this module: [None], an [int]
    (Integer columns) or a [str] (Text columns). *)
Inductive value :=
| VNone
| VInt (z : Z)
| VStr (s : string).

#[global] Instance value_eq_dec : EqDecision value.
Proof. solve_decision. Defined.

Definition is_none (v : value) : bool :=
  match v with VNone => true | _ => false end.

(** A [str | None] argument. *)
Definition of_text (t : option string) : value :=
  match t with Some s => VStr s | None => VNone end.

(** ** Column and class declarations *)

Inductive sqltype := Integer | Text.

Inductive referential_action := cascade | no_action.

(** [db.ForeignKey('table.column', ondelete=...)]. *)
Record ForeignKey := {
  fk_table : string;
  fk_column : string;
  ondelete : referential_action;
}.

(** Keyword arguments of [db.Column]. *)
Inductive kwarg :=
| primary_key (b : bool)
| nullable (b : bool)
| unique (b : bool)
| default (v : value).

(** [db.Column(type, [ForeignKey], **kwargs)]. *)
Record Column := {
  col_type : sqltype;
  col_fk : option ForeignKey;
  col_kwargs : list kwarg;
}.

(** A statement of a class body. *)
Inductive stmt :=
| Assign (name : string) (c : Column)
    (* name = db.Column(...) *)
| UniqueConstraint (cols : list string)
    (* db.UniqueConstraint(a, b): an expression statement over the
       Column objects bound to the local names a, b *)
| relationship (name target : string) (secondary : option string)
    (backref : string).
    (* name = db.relationship(target, secondary=..., backref=...) *)

Record Model := {
  tablename : string;
  body : list stmt;
}.

Definition User : Model := {|
  tablename := "users";
  body := [
    Assign "id" {| col_type := Integer; col_fk := None;
                   col_kwargs := [primary_key true] |};
    Assign "username" {| col_type := Text; col_fk := None;
                         col_kwargs := [nullable false; unique true] |};
    Assign "email" {| col_type := Text; col_fk := None;
                      col_kwargs := [nullable false; unique true] |};
    Assign "password" {| col_type := Text; col_fk := None;
                         col_kwargs := [nullable false] |};
    Assign "first_name" {| col_type := Text; col_fk := None;
                           col_kwargs := [nullable false] |};
    Assign "last_name" {| col_type := Text; col_fk := None;
                          col_kwargs := [nullable false] |};
    Assign "image_url" {| col_type := Text; col_fk := None;
                          col_kwargs :=
                            [default (VStr "/static/images/default-pic.png")] |}
  ] |}.

Definition Course : Model := {|
  tablename := "courses";
  body := [
    Assign "id" {| col_type := Integer; col_fk := None;
                   col_kwargs := [primary_key true] |};
    Assign "title" {| col_type := Text; col_fk := None;
                      col_kwargs := [nullable false] |};
    Assign "description" {| col_type := Text; col_fk := None;
                            col_kwargs := [] |};
    Assign "creator_id"
      {| col_type := Integer;
         col_fk := Some {| fk_table := "users"; fk_column := "id";
                           ondelete := cascade |};
         col_kwargs := [nullable false] |};
    UniqueConstraint ["title"; "creator_id"];
    relationship "creator" "User" None "courses";
    relationship "videos" "Video" (Some "videos_courses") "courses";
    relationship "videos_courses" "VideoCourse" None "course"
  ] |}.

Definition Video : Model := {|
  tablename := "videos";
  body := [
    Assign "id" {| col_type := Integer; col_fk := None;
                   col_kwargs := [primary_key true] |};
    Assign "title" {| col_type := Text; col_fk := None;
                      col_kwargs := [nullable false] |};
    Assign "description" {| col_type := Text; col_fk := None;
                            col_kwargs := [] |};
    Assign "yt_video_id" {| col_type := Text; col_fk := None;
                            col_kwargs := [nullable false] |};
    Assign "yt_channel_id" {| col_type := Text; col_fk := None;
                              col_kwargs := [nullable false] |};
    Assign "yt_channel_title" {| col_type := Text; col_fk := None;
                                 col_kwargs := [] |};
    Assign "thumb_url" {| col_type := Text; col_fk := None;
                          col_kwargs := [] |};
    relationship "videos_courses" "VideoCourse" None "video"
  ] |}.

Definition VideoCourse : Model := {|
  tablename := "videos_courses";
  body := [
    Assign "id" {| col_type := Integer; col_fk := None;
                   col_kwargs := [primary_key true] |};
    Assign "course_id"
      {| col_type := Integer;
         col_fk := Some {| fk_table := "courses"; fk_column := "id";
                           ondelete := cascade |};
         col_kwargs := [] |};
    Assign "video_id"
      {| col_type := Integer;
         col_fk := Some {| fk_table := "videos"; fk_column := "id";
                           ondelete := cascade |};
         col_kwargs := [] |};
    Assign "video_seq" {| col_type := Integer; col_fk := None;
                          col_kwargs := [nullable false] |};
    UniqueConstraint ["course_id"; "video_id"; "video_seq"];
    UniqueConstraint ["course_id"; "video_seq"]
  ] |}.

(** The classes registered on [db.Model]. *)
Definition models : list Model := [User; Course; Video; VideoCourse].

(** ** The table a class is mapped to *)

Definition is_primary_key (c : Column) : bool :=
  existsb (fun k => match k with primary_key b => b | _ => false end)
          (col_kwargs c).

Definition is_unique (c : Column) : bool :=
  existsb (fun k => match k with unique b => b | _ => false end)
          (col_kwargs c).

(** [nullable] defaults to [not primary_key]. *)
Definition is_nullable (c : Column) : bool :=
  match head (omap (fun k => match k with nullable b => Some b | _ => None end)
                   (col_kwargs c)) with
  | Some b => b
  | None => negb (is_primary_key c)
  end.

Definition col_default (c : Column) : option value :=
  head (omap (fun k => match k with default v => Some v | _ => None end)
             (col_kwargs c)).

(** The table metadata built for a mapped class. *)
Record Table := {
  name : string;
  columns : list (string * Column);
  constraints : list (list string);
}.

Definition declared_columns (m : Model) : list (string * Column) :=
  omap (fun s => match s with Assign n c => Some (n, c) | _ => None end)
       (body m).

(** A constraint built from Column objects attaches itself to the table
    those columns are attached to (SQLAlchemy's column-attach event,
    since 1.0): a [UniqueConstraint] written as a bare statement of the
    class body over columns of the same body therefore ends up in the
    table's constraints, as one listed in [__table_args__] does. *)
Definition attached_constraints (m : Model) : list (list string) :=
  omap (fun s =>
          match s with
          | UniqueConstraint cols =>
              if forallb (fun c => bool_decide (c ∈ (declared_columns m).*1))
                         cols
              then Some cols else None
          | _ => None
          end)
       (body m).

Definition __table__ (m : Model) : Table := {|
  name := tablename m;
  columns := declared_columns m;
  constraints := attached_constraints m;
|}.

(** [db.metadata]: the tables [create_all] emits. *)
Definition metadata : list Table := map __table__ models.

Definition column_of (t : Table) (n : string) : option Column :=
  snd <$> head (List.filter (fun nc => bool_decide (nc.1 = n)) (columns t)).

Definition primary_key_columns (t : Table) : list string :=
  (List.filter (fun nc => is_primary_key nc.2) (columns t)).*1.

(** Every set of columns the table keeps unique: the primary key, each
    [unique=True] column, each attached [UniqueConstraint]. *)
Definition unique_keys (t : Table) : list (list string) :=
  (match primary_key_columns t with [] => [] | pk => [pk] end)
  ++ map (fun nc => [nc.1]) (List.filter (fun nc => is_unique nc.2) (columns t))
  ++ constraints t.

(** ** The relational store *)

Abbreviation Row := (gmap string value).
Abbreviation Store := (gmap string (list (gmap string value))).

Definition get (r : Row) (c : string) : value := from_option id VNone (r !! c).
Arguments get : simpl never.

Definition rows (db : Store) (t : string) : list Row := from_option id [] (db !! t).

Inductive sqlerror :=
| NotNullViolation
| UniqueViolation
| ForeignKeyViolation.

Inductive exn :=
| ValueError
| IntegrityError (e : sqlerror).

Inductive result (A : Type) :=
| Ok (a : A)
| Raise (e : exn).
Arguments Ok {A} a.
Arguments Raise {A} e.

(** The value an autoincrementing integer key receives. *)
Definition next_id (c : string) (rs : list Row) : Z :=
  1 + foldr (fun r m => match get r c with VInt z => Z.max z m | _ => m end)
            0 rs.

(** The parameter bound for column [n] when [obj] is inserted: the
    attribute when it is set to something other than [None]; otherwise
    the column's Python-side default; otherwise the next key for an
    integer primary key; otherwise NULL. *)
Definition bind_param (rs : list Row) (obj : Row) (n : string) (c : Column)
  : value :=
  let missing :=
    match col_default c with
    | Some d => d
    | None =>
        match col_type c, is_primary_key c with
        | Integer, true => VInt (next_id n rs)
        | _, _ => VNone
        end
    end in
  match obj !! n with
  | Some v => if is_none v then missing else v
  | None => missing
  end.

Definition insert_row (t : Table) (rs : list Row) (obj : Row) : Row :=
  list_to_map (map (fun nc => (nc.1, bind_param rs obj nc.1 nc.2)) (columns t)).

Definition not_null_ok (t : Table) (r : Row) : bool :=
  forallb (fun nc => is_nullable nc.2 || negb (is_none (get r nc.1)))
          (columns t).

(** Two rows collide on a key when they agree on every column of it and
    none of those values is NULL (NULLs never compare equal). *)
Definition key_conflict (key : list string) (r1 r2 : Row) : bool :=
  forallb (fun c => negb (is_none (get r1 c))
                    && bool_decide (get r1 c = get r2 c)) key.

Definition unique_ok (t : Table) (rs : list Row) (r : Row) : bool :=
  forallb (fun key => negb (existsb (key_conflict key r) rs)) (unique_keys t).

Definition foreign_keys_ok (db : Store) (t : Table) (r : Row) : bool :=
  forallb (fun nc =>
             match col_fk nc.2 with
             | None => true
             | Some fk =>
                 is_none (get r nc.1)
                 || existsb (fun p => bool_decide (get p (fk_column fk)
                                                   = get r nc.1))
                            (rows db (fk_table fk))
             end)
          (columns t).

(** INSERT of one object into its table. *)
Definition insert (db : Store) (t : Table) (obj : Row) : result Store :=
  let rs := rows db (name t) in
  let r := insert_row t rs obj in
  if negb (not_null_ok t r) then Raise (IntegrityError NotNullViolation)
  else if negb (unique_ok t rs r) then Raise (IntegrityError UniqueViolation)
  else if negb (foreign_keys_ok db t r)
       then Raise (IntegrityError ForeignKeyViolation)
  else Ok (<[name t := rs ++ [r]]> db).
Arguments insert : simpl never.

(** The foreign keys of [schema] that point at table [t], each with the
    table and column that carries it. *)
Definition referencing (schema : list Table) (t : string)
  : list (string * string * ForeignKey) :=
  flat_map (fun ct =>
              omap (fun nc =>
                      match col_fk nc.2 with
                      | Some fk => if bool_decide (fk_table fk = t)
                                   then Some (name ct, nc.1, fk) else None
                      | None => None
                      end)
                   (columns ct))
           schema.

(** [r] holds in [ccol] the [pcol] value of one of the [victims]. *)
Definition refers (victims : list Row) (ccol pcol : string) (r : Row) : bool :=
  negb (is_none (get r ccol))
  && existsb (fun v => bool_decide (get v pcol = get r ccol)) victims.

(** DELETE FROM t WHERE p, with the declared ON DELETE actions.  The
    recursion follows foreign keys from table to table; [fuel] bounds its
    depth, and [None] means the bound was reached. *)
Fixpoint delete_where (schema : list Table) (fuel : nat) (db : Store)
    (t : string) (p : Row -> bool) : option (result Store) :=
  match fuel with
  | O => None
  | S fuel =>
      let victims := List.filter p (rows db t) in
      let children :=
        fold_left
          (fun acc ref =>
             match acc with
             | Some (Ok db1) =>
                 let '(ct, ccol, fk) := ref in
                 let hit := refers victims ccol (fk_column fk) in
                 match ondelete fk with
                 | cascade => delete_where schema fuel db1 ct hit
                 | no_action =>
                     if existsb hit (rows db1 ct)
                     then Some (Raise (IntegrityError ForeignKeyViolation))
                     else Some (Ok db1)
                 end
             | _ => acc
             end)
          (referencing schema t) (Some (Ok db)) in
      match children with
      | Some (Ok db1) =>
          Some (Ok (<[t := List.filter (fun r => negb (p r)) (rows db1 t)]> db1))
      | other => other
      end
  end.

(** ** The ORM session [db.session] *)

(** [database] is the committed store; [transaction] is the store as the
    open transaction sees it (rows flushed but not yet committed
    included); [new] holds the objects added and not yet flushed, each
    with its class. *)
Record Session := {
  database : Store;
  transaction : Store;
  new : list (Model * gmap string value);
}.

(** [db.session.add(obj)] *)
Definition add (s : Session) (m : Model) (obj : Row) : Session :=
  {| database := database s; transaction := transaction s;
     new := new s ++ [(m, obj)] |}.

(** [db.session.rollback()] *)
Definition rollback (s : Session) : Session :=
  {| database := database s; transaction := database s; new := [] |}.

Fixpoint flush_objects (db : Store) (objs : list (Model * Row))
  : result Store :=
  match objs with
  | [] => Ok db
  | (m, obj) :: rest =>
      match insert db (__table__ m) obj with
      | Ok db' => flush_objects db' rest
      | Raise e => Raise e
      end
  end.

(** [db.session.flush()]: the pending objects are inserted inside the
    transaction, in the order they were added; when an INSERT fails the
    transaction is rolled back and the error is raised. *)
Definition flush (s : Session) : result unit * Session :=
  match flush_objects (transaction s) (new s) with
  | Ok db' =>
      (Ok (), {| database := database s; transaction := db'; new := [] |})
  | Raise e => (Raise e, rollback s)
  end.

(** [db.session.commit()] *)
Definition commit (s : Session) : result unit * Session :=
  match flush s with
  | (Ok _, s') =>
      (Ok (), {| database := transaction s'; transaction := transaction s';
                 new := [] |})
  | (Raise e, s') => (Raise e, s')
  end.

(** [cls.query.filter_by(col=v).first()]: the session flushes what is
    pending (autoflush), then the first matching row is returned, or
    [None]. *)
Definition query_filter_by_first (s : Session) (m : Model) (col : string)
    (v : value) : result (option Row) * Session :=
  match flush s with
  | (Ok _, s') =>
      (Ok (head (List.filter (fun r => bool_decide (get r col = v))
                             (rows (transaction s') (tablename m)))),
       s')
  | (Raise e, s') => (Raise e, s')
  end.

(** ** [User.signup] and [User.authenticate] *)

(** What [authenticate] returns: the user object, or [False]. *)
Inductive auth :=
| AuthUser (user : gmap string value)
| AuthFalse.


(** [bytes.decode('UTF-8')]: a bcrypt hash is ASCII, and a [str] is kept
    here as its UTF-8 bytes. *)
Definition decode (b : string) : string := b.

Section Credentials.

(** The salt [generate_password_hash] draws on each call is made an
    argument. *)
Variable Salt : Type.

(** [bcrypt.generate_password_hash(password)]; it raises on [None]
    and on an empty password. *)
Variable generate_password_hash : Salt -> option string -> result string.

(** [bcrypt.check_password_hash(pw_hash, password)] *)
Variable check_password_hash : value -> option string -> result bool.

Definition signup (salt : Salt) (s : Session)
    (email username password first_name last_name image_url : option string)
  : result Row * Session :=
  match generate_password_hash salt password with
  | Raise e => (Raise e, s)
  | Ok h =>
      let hashed_pw := decode h in
      let user : Row :=
        list_to_map [("username", of_text username);
                     ("password", VStr hashed_pw);
                     ("first_name", of_text first_name);
                     ("last_name", of_text last_name);
                     ("image_url", of_text image_url);
                     ("email", of_text email)] in
      (Ok user, add s User user)
  end.

Definition authenticate (s : Session) (username password : option string)
  : result auth * Session :=
  match query_filter_by_first s User "username" (of_text username) with
  | (Raise e, s') => (Raise e, s')
  | (Ok None, s') => (Ok AuthFalse, s')
  | (Ok (Some user), s') =>
      match check_password_hash (get user "password") password with
      | Raise e => (Raise e, s')
      | Ok true => (Ok (AuthUser user), s')
      | Ok false => (Ok AuthFalse, s')
      end
  end.

End Credentials.

(** ** Stores the application can reach *)

(** DELETE FROM the table of [m] WHERE id = [k]. *)
Definition has_id (k : Z) (r : Row) : bool := bool_decide (get r "id" = VInt k).

Inductive reachable : Store -> Prop :=
| reachable_empty : reachable ∅
| reachable_insert db m obj db' :
    reachable db -> m ∈ models ->
    insert db (__table__ m) obj = Ok db' ->
    reachable db'
| reachable_delete db fuel m p db' :
    reachable db -> m ∈ models ->
    delete_where metadata fuel db (tablename m) p = Some (Ok db') ->
    reachable db'.

(** No two rows of [rs] collide on [key]. *)
Fixpoint distinct_on (key : list string) (rs : list Row) : Prop :=
  match rs with
  | [] => True
  | r :: rest =>
      Forall (fun r' => key_conflict key r r' = false) rest
      /\ distinct_on key rest
  end.

Definition table_ok (t : Table) (rs : list Row) : Prop :=
  Forall (fun r => not_null_ok t r = true) rs
  /\ forall key, key ∈ unique_keys t -> distinct_on key rs.

Definition store_ok (db : Store) : Prop :=
  forall t, t ∈ metadata -> table_ok t (rows db (name t)).

(** [r] is the row stored for the object [obj]: every attribute set on
    the object to something other than [None] is in the row. *)
Definition stored_as (obj r : Row) : Prop :=
  forall n v, obj !! n = Some v -> v <> VNone -> r !! n = Some v.

(** A column that an INSERT fills from the attribute alone: it has no
    default and is not the generated key. *)
Definition plain_column (t : Table) (c : string) : bool :=
  match column_of t c with
  | Some col => negb (is_primary_key col) && bool_decide (col_default col = None)
  | None => false
  end.

(** A column declared (or defaulting to) NOT NULL. *)
Definition required (t : Table) (c : string) : bool :=
  match column_of t c with
  | Some col => negb (is_nullable col)
  | None => false
  end.

(** The object has every attribute its table needs: the row built for
    it passes the NOT NULL check (the generated key never fails it). *)
Definition complete (t : Table) (obj : Row) : bool :=
  not_null_ok t (insert_row t [] obj).

(** The rows of [rs] whose column [col] is not the integer [k]. *)
Definition without (col : string) (k : Z) (rs : list Row) : list Row :=
  List.filter (fun r => negb (bool_decide (get r col = VInt k))) rs.

(** ** [__repr__] *)

(** [str(v)], as an f-string field renders it. *)
Definition str (v : value) : string :=
  match v with
  | VNone => "None"
  | VInt z => NilZero.string_of_int (Z.to_int z)
  | VStr s => s
  end.

(** [User.__repr__]: [f"<User #{self.id}: {self.username}, {self.email}>"] *)
Definition User__repr__ (self : Row) : string :=
  "<User #" +:+ str (get self "id") +:+ ": " +:+ str (get self "username")
  +:+ ", " +:+ str (get self "email") +:+ ">".

(** [Course.__repr__]:
    [f"<Course #{self.id}: {self.title}, {self.creator_id}>"] *)
Definition Course__repr__ (self : Row) : string :=
  "<Course #" +:+ str (get self "id") +:+ ": " +:+ str (get self "title")
  +:+ ", " +:+ str (get self "creator_id") +:+ ">".

(** ** Stores and sessions, continued *)

(** The session a request starts with over a committed store. *)
Definition session_on (db : Store) : Session :=
  {| database := db; transaction := db; new := [] |}.

(** Every foreign key of every stored row is NULL or the key of a stored
    row of the table it points at. *)
Definition referential_integrity (db : Store) : Prop :=
  forall t, t ∈ metadata ->
    Forall (fun r => foreign_keys_ok db t r = true) (rows db (name t)).

(** No character of [s] is [c]. *)
Fixpoint lacks (c : ascii) (s : string) : bool :=
  match s with
  | EmptyString => true
  | String a s' => negb (Ascii.eqb a c) && lacks c s'
  end.

(** The value of [r] in [col] is NULL or the [id] of one of [parents]. *)
Definition parent_ok (parents : list Row) (col : string) (r : Row) : bool :=
  is_none (get r col)
  || existsb (fun p => bool_decide (get p "id" = get r col)) parents.

(** ** A stand-in for the hashing library

    A function pair with the shape of the two Flask-Bcrypt calls, small
    enough to evaluate; it shows that the contract assumed of the
    library below can be met, and the examples run on it. *)
Module Standin.

Definition generate_password_hash (salt : ascii) (password : option string)
  : result string :=
  match password with
  | Some (String c p) => Ok (String "$" (String salt (String c p)))
  | _ => Raise ValueError
  end.

Definition check_password_hash (pw_hash : value) (password : option string)
  : result bool :=
  match pw_hash, password with
  | VStr (String "$" (String _ h)), Some p => Ok (bool_decide (h = p))
  | _, _ => Raise ValueError
  end.

Definition session0 : Session :=
  {| database := ∅; transaction := ∅; new := [] |}.

Definition signup_ann (s : Session) : result Row * Session :=
  signup ascii generate_password_hash "s"%char s
         (Some "ann@example.org") (Some "ann") (Some "secret")
         (Some "Ann") (Some "Lee") None.

Definition session_ann : Session := (commit (signup_ann session0).2).2.

Definition ann : Row :=
  list_to_map [("username", VStr "ann"); ("password", VStr "$ssecret");
               ("first_name", VStr "Ann"); ("last_name", VStr "Lee");
               ("image_url", VNone); ("email", VStr "ann@example.org")].

Definition ann_row : Row :=
  <["id" := VInt 1]>
    (<["image_url" := VStr "/static/images/default-pic.png"]> ann).

Definition course (title : string) (creator : Z) : Row :=
  list_to_map [("title", VStr title); ("creator_id", VInt creator)].

Definition video (title : string) : Row :=
  list_to_map [("title", VStr title); ("yt_video_id", VStr "v");
               ("yt_channel_id", VStr "c")].

Definition video_course (course video seq : Z) : Row :=
  list_to_map [("course_id", VInt course); ("video_id", VInt video);
               ("video_seq", VInt seq)].

Definition ann_again : Row :=
  list_to_map [("username", VStr "ann"); ("password", VStr "$tsecret");
               ("first_name", VStr "Anna"); ("last_name", VStr "Li");
               ("image_url", VNone); ("email", VStr "anna@example.org")].

Definition ok_or_empty (r : result Store) : Store :=
  match r with Ok db => db | Raise _ => ∅ end.

(** One user; then one course; then two videos; then the first video
    at position 1 of the course. *)
Definition db_users : Store := database session_ann.

Definition db_course : Store :=
  ok_or_empty (insert db_users (__table__ Course) (course "Rocq" 1)).

Definition db_videos : Store :=
  ok_or_empty (flush_objects db_course [(Video, video "Intro");
                                        (Video, video "Tactics")]).

Definition library : Store :=
  ok_or_empty (insert db_videos (__table__ VideoCourse) (video_course 1 1 1)).

(** The same account under another id, the same course under two ids,
    a link row without a course, and the library once Ann is deleted. *)
Definition ann_row_2 : Row := <["id" := VInt 2]> ann_row.

Definition course_row (k : Z) : Row := <["id" := VInt k]> (course "Rocq" 1).


Definition db_deleted : Store :=
  match delete_where metadata 3 library "users" (has_id 1) with
  | Some (Ok db) => db
  | _ => ∅
  end.

Definition nameless : Row :=
  list_to_map [("username", VNone); ("password", VStr "$ssecret");
               ("first_name", VStr "Ann"); ("last_name", VStr "Lee");
               ("image_url", VNone); ("email", VStr "ann@example.org")].

End Standin.

(** ** Proof automation *)

(** Membership in a list written out. *)
Ltac in_list :=
  repeat first [apply list_elem_of_here | apply list_elem_of_further].

(** * Properties *)

(** ** The store *)

Lemma rows_insert_eq (db : Store) t l : rows (<[t := l]> db) t = l.
Proof. unfold rows. by rewrite lookup_insert_eq. Qed.

Lemma rows_insert_ne (db : Store) t t' l :
  t <> t' -> rows (<[t := l]> db) t' = rows db t'.
Proof. intros Hne. unfold rows. by rewrite lookup_insert_ne. Qed.

Lemma rows_empty t : rows ∅ t = [].
Proof. unfold rows. by rewrite lookup_empty. Qed.

(** What a successful INSERT checked and wrote. *)
Lemma insert_Ok_inv db t obj db' :
  insert db t obj = Ok db' ->
  let rs := rows db (name t) in
  let r := insert_row t rs obj in
  not_null_ok t r = true /\ unique_ok t rs r = true
  /\ foreign_keys_ok db t r = true /\ db' = <[name t := rs ++ [r]]> db.
Proof.
  unfold insert. intros H.
  destruct (not_null_ok t _) eqn:Hnn; [|discriminate].
  destruct (unique_ok t _ _) eqn:Hu; [|discriminate].
  destruct (foreign_keys_ok db t _) eqn:Hfk; [|discriminate].
  simpl in H. by inversion H.
Qed.

Lemma lookup_insert_row (f : string -> Column -> value) cols n :
  (list_to_map (map (fun nc => (nc.1, f nc.1 nc.2)) cols) : Row) !! n
  = (f n ∘ snd) <$> head (List.filter (fun nc => bool_decide (nc.1 = n)) cols).
Proof.
  induction cols as [|[m c] cols IH]; simpl.
  - by rewrite lookup_empty.
  - case_bool_decide as Hm; simpl in Hm.
    + subst m. by rewrite lookup_insert_eq.
    + by rewrite lookup_insert_ne.
Qed.

Lemma get_insert_row t rs obj n :
  get (insert_row t rs obj) n
  = match column_of t n with
    | Some c => bind_param rs obj n c
    | None => VNone
    end.
Proof.
  unfold get, insert_row, column_of.
  rewrite (lookup_insert_row (bind_param rs obj)).
  by destruct (head _) as [[m c]|].
Qed.

(** An attribute set to a value other than [None] is what gets bound. *)
Lemma bind_param_set rs obj n c v :
  get obj n = v -> v <> VNone -> bind_param rs obj n c = v.
Proof.
  unfold get, bind_param. intros <- Hv.
  destruct (obj !! n) as [w|]; simpl in *; [|done].
  by destruct w.
Qed.

Lemma key_conflict_sym key r1 r2 :
  key_conflict key r1 r2 = key_conflict key r2 r1.
Proof.
  unfold key_conflict. induction key as [|c key IH]; [done|]. simpl.
  rewrite IH. f_equal.
  destruct (decide (get r1 c = get r2 c)) as [He|Hne].
  - rewrite He. by rewrite !bool_decide_eq_true_2.
  - rewrite !bool_decide_eq_false_2; [|congruence|done].
    by rewrite !andb_false_r.
Qed.

(** A row that collides with a stored row on one of the table's keys is
    rejected by the uniqueness check. *)
Lemma unique_ok_conflict t rs r key r' :
  key ∈ unique_keys t -> r' ∈ rs -> key_conflict key r r' = true ->
  unique_ok t rs r = false.
Proof.
  intros Hkey Hr' Hc. unfold unique_ok.
  apply not_true_is_false. intros Hall.
  rewrite forallb_forall in Hall.
  specialize (Hall key (proj1 (list_elem_of_In _ _) Hkey)).
  apply negb_true_iff in Hall.
  assert (existsb (key_conflict key r) rs = true) as Hex; [|congruence].
  apply existsb_exists. exists r'. split; [|done].
  by apply list_elem_of_In.
Qed.

Lemma unique_ok_no_conflict t rs r key r' :
  unique_ok t rs r = true -> key ∈ unique_keys t -> r' ∈ rs ->
  key_conflict key r r' = false.
Proof.
  intros Hu Hkey Hr'. apply not_true_is_false. intros Hc.
  by rewrite (unique_ok_conflict t rs r key r') in Hu.
Qed.

(** A column with no default that is not the key binds the attribute as
    it is, [None] included. *)
Lemma bind_param_plain rs obj n c :
  col_default c = None -> is_primary_key c = false ->
  bind_param rs obj n c = get obj n.
Proof.
  unfold bind_param, get. intros -> ->.
  destruct (obj !! n) as [[]|], (col_type c); done.
Qed.

(** An integer primary key is never bound to NULL. *)
Lemma bind_param_key rs obj n c :
  col_type c = Integer -> is_primary_key c = true -> col_default c = None ->
  is_none (bind_param rs obj n c) = false.
Proof.
  unfold bind_param. intros -> -> ->.
  destruct (obj !! n) as [[]|]; done.
Qed.

Lemma insert_duplicate_key db t obj key r' :
  let r := insert_row t (rows db (name t)) obj in
  not_null_ok t r = true ->
  key ∈ unique_keys t -> r' ∈ rows db (name t) ->
  key_conflict key r r' = true ->
  insert db t obj = Raise (IntegrityError UniqueViolation).
Proof.
  intros r Hnn Hkey Hr' Hc. unfold insert. fold r. rewrite Hnn. simpl.
  by rewrite (unique_ok_conflict t _ r key r').
Qed.

(** ** Invariants of every reachable store *)

Lemma distinct_on_app key rs r :
  distinct_on key rs ->
  (forall r', r' ∈ rs -> key_conflict key r r' = false) ->
  distinct_on key (rs ++ [r]).
Proof.
  induction rs as [|x rs IH]; simpl; intros Hd Hr.
  - split; [constructor | done].
  - destruct Hd as [Hx Hd]. split.
    + apply Forall_app. split; [done|].
      constructor; [|constructor].
      rewrite key_conflict_sym. apply Hr. by left.
    + apply IH; [done|]. intros r' Hr'. apply Hr. by right.
Qed.

Lemma Forall_sublist_of (P : Row -> Prop) rs rs' :
  rs' `sublist_of` rs -> Forall P rs -> Forall P rs'.
Proof.
  intros Hsub. rewrite !Forall_forall. intros H x Hx.
  apply H. by eapply sublist_subseteq.
Qed.

Lemma distinct_on_sublist key rs rs' :
  rs' `sublist_of` rs -> distinct_on key rs -> distinct_on key rs'.
Proof.
  induction 1 as [|x l1 l2 Hsub IH|x l1 l2 Hsub IH]; simpl; [done| |].
  - intros [Hx Hd]. split; [|by apply IH].
    by eapply Forall_sublist_of.
  - intros [_ Hd]. by apply IH.
Qed.

Lemma distinct_on_lookup key rs i j r1 r2 :
  distinct_on key rs -> rs !! i = Some r1 -> rs !! j = Some r2 ->
  key_conflict key r1 r2 = true -> i = j.
Proof.
  revert i j. induction rs as [|x rs IH]; intros i j Hd Hi Hj Hc; [done|].
  destruct Hd as [Hx Hd]. rewrite Forall_forall in Hx.
  destruct i as [|i], j as [|j]; simpl in *; simplify_eq.
  - done.
  - apply list_elem_of_lookup_2 in Hj. apply Hx in Hj. congruence.
  - apply list_elem_of_lookup_2 in Hi. apply Hx in Hi.
    rewrite key_conflict_sym in Hc. congruence.
  - f_equal. by eapply IH.
Qed.

Lemma filter_sublist (f : Row -> bool) l : List.filter f l `sublist_of` l.
Proof.
  induction l as [|x l IH]; simpl; [constructor|].
  destruct (f x); by constructor.
Qed.

Lemma table_ok_sublist t rs rs' :
  rs' `sublist_of` rs -> table_ok t rs -> table_ok t rs'.
Proof.
  intros Hsub [Hnn Hd]. split.
  - by eapply Forall_sublist_of.
  - intros key Hkey. eapply distinct_on_sublist; [done|]. by apply Hd.
Qed.

Lemma table_ok_insert t rs r :
  table_ok t rs -> not_null_ok t r = true -> unique_ok t rs r = true ->
  table_ok t (rs ++ [r]).
Proof.
  intros [Hnn Hd] Hr Hu. split.
  - apply Forall_app. split; [done|]. by constructor.
  - intros key Hkey. apply distinct_on_app; [by apply Hd|].
    intros r' Hr'. by eapply unique_ok_no_conflict.
Qed.

(** A DELETE only removes rows, whatever table they are in. *)
Lemma delete_where_sublist schema fuel db t p db' :
  delete_where schema fuel db t p = Some (Ok db') ->
  forall tn, rows db' tn `sublist_of` rows db tn.
Proof.
  revert db t p db'. induction fuel as [|fuel IH]; [done|].
  intros db t p db'. simpl.
  set (victims := List.filter p (rows db t)).
  assert (Hfold : forall refs acc db1,
    fold_left
      (fun acc ref =>
         match acc with
         | Some (Ok db1) =>
             let '(ct, ccol, fk) := ref in
             let hit := refers victims ccol (fk_column fk) in
             match ondelete fk with
             | cascade => delete_where schema fuel db1 ct hit
             | no_action =>
                 if existsb hit (rows db1 ct)
                 then Some (Raise (IntegrityError ForeignKeyViolation))
                 else Some (Ok db1)
             end
         | _ => acc
         end) refs acc = Some (Ok db1) ->
    exists db0, acc = Some (Ok db0)
                /\ forall tn, rows db1 tn `sublist_of` rows db0 tn).
  { induction refs as [|[[ct ccol] fk] refs IHrefs]; intros acc db1; simpl.
    - intros ->. by exists db1.
    - intros Hf. apply IHrefs in Hf as (dbm & Hm & Hsub).
      destruct acc as [[db0|e]|]; [|done|done].
      exists db0. split; [done|]. intros tn.
      transitivity (rows dbm tn); [done|].
      destruct (ondelete fk).
      + by eapply IH.
      + destruct (existsb _ _); by simplify_eq. }
  destruct (fold_left _ _ _) as [[db1|e]|] eqn:Hf; [|done|done].
  apply Hfold in Hf as (db0 & Hdb0 & Hsub). simplify_eq.
  intros Hdb' tn. simplify_eq.
  destruct (decide (t = tn)) as [->|Hne].
  - rewrite rows_insert_eq. transitivity (rows db1 tn); [|done].
    apply filter_sublist.
  - by rewrite rows_insert_ne.
Qed.

Lemma metadata_name_inj t t' :
  t ∈ metadata -> t' ∈ metadata -> name t = name t' -> t = t'.
Proof.
  unfold metadata, models. simpl map. intros Ht Ht'.
  repeat (apply elem_of_cons in Ht as [->|Ht]);
    repeat (apply elem_of_cons in Ht' as [->|Ht']);
    try done; by apply elem_of_nil in Ht || by apply elem_of_nil in Ht'.
Qed.

Lemma store_ok_empty : store_ok ∅.
Proof.
  intros t _. rewrite rows_empty. split; [constructor|]. by intros.
Qed.

Lemma store_ok_insert db t obj db' :
  t ∈ metadata -> store_ok db -> insert db t obj = Ok db' -> store_ok db'.
Proof.
  intros Ht Hok Hins. apply insert_Ok_inv in Hins as (Hnn & Hu & _ & ->).
  intros t' Ht'. destruct (decide (name t = name t')) as [He|Hne].
  - assert (t = t') as <- by by apply metadata_name_inj.
    rewrite rows_insert_eq. apply table_ok_insert; [by apply Hok|done..].
  - rewrite rows_insert_ne; [|done]. by apply Hok.
Qed.

Lemma store_ok_delete schema fuel db t p db' :
  store_ok db -> delete_where schema fuel db t p = Some (Ok db') ->
  store_ok db'.
Proof.
  intros Hok Hdel t' Ht'. eapply table_ok_sublist; [|by apply Hok].
  by eapply delete_where_sublist.
Qed.

Lemma reachable_store_ok db : reachable db -> store_ok db.
Proof.
  induction 1 as [|db m obj db' _ IH Hm Hins|db fuel m p db' _ IH Hm Hdel].
  - apply store_ok_empty.
  - eapply store_ok_insert; [|done..]. unfold metadata.
    apply list_elem_of_In, in_map. by apply list_elem_of_In.
  - by eapply store_ok_delete.
Qed.

Lemma get_insert_row_plain t rs obj c :
  plain_column t c = true -> get (insert_row t rs obj) c = get obj c.
Proof.
  unfold plain_column. rewrite get_insert_row.
  destruct (column_of t c) as [col|]; [|done].
  intros [Hpk Hd]%andb_prop. apply bind_param_plain.
  - by apply bool_decide_eq_true_1 in Hd.
  - by apply negb_true_iff in Hpk.
Qed.

Lemma key_conflict_true key r1 r2 :
  (forall c, c ∈ key -> get r1 c = get r2 c /\ get r1 c <> VNone) ->
  key_conflict key r1 r2 = true.
Proof.
  intros H. unfold key_conflict. apply forallb_forall. intros c Hc.
  apply list_elem_of_In, H in Hc as [He Hn].
  rewrite bool_decide_eq_true_2; [|done]. by destruct (get r1 c).
Qed.

(** Inserting, after [obj1], an object that repeats its values on a key
    of plain columns is a uniqueness violation, provided the second
    object passes the NOT NULL check. *)
Lemma insert_twice_conflict t db obj1 db1 obj2 key :
  insert db t obj1 = Ok db1 ->
  key ∈ unique_keys t ->
  forallb (plain_column t) key = true ->
  (forall c, c ∈ key -> get obj2 c = get obj1 c /\ get obj1 c <> VNone) ->
  not_null_ok t (insert_row t (rows db1 (name t)) obj2) = true ->
  insert db1 t obj2 = Raise (IntegrityError UniqueViolation).
Proof.
  intros Hins Hkey Hplain Hsame Hnn.
  apply insert_Ok_inv in Hins as (_ & _ & _ & ->).
  rewrite forallb_forall in Hplain.
  eapply insert_duplicate_key; [done..| |].
  - rewrite rows_insert_eq. apply elem_of_app. right. by left.
  - apply key_conflict_true. intros c Hc.
    pose proof (Hplain c (proj1 (list_elem_of_In _ _) Hc)) as Hp.
    rewrite !get_insert_row_plain by done.
    destruct (Hsame c Hc) as [-> ?]. done.
Qed.

(** In a reachable store, two rows of a table that agree on a key with
    no NULL in it are the same row. *)
Lemma reachable_key_unique db m key i j r1 r2 :
  reachable db -> m ∈ models -> key ∈ unique_keys (__table__ m) ->
  rows db (tablename m) !! i = Some r1 ->
  rows db (tablename m) !! j = Some r2 ->
  (forall c, c ∈ key -> get r1 c = get r2 c /\ get r1 c <> VNone) ->
  i = j.
Proof.
  intros Hr Hm Hkey Hi Hj Hsame.
  apply reachable_store_ok in Hr.
  destruct (Hr (__table__ m)) as [_ Hd].
  { unfold metadata. apply list_elem_of_In, in_map. by apply list_elem_of_In. }
  eapply distinct_on_lookup; [by apply Hd|done..|].
  by apply key_conflict_true.
Qed.

(** In a reachable store, every row satisfies its table's NOT NULL
    constraints. *)
Lemma reachable_not_null db m r :
  reachable db -> m ∈ models -> r ∈ rows db (tablename m) ->
  not_null_ok (__table__ m) r = true.
Proof.
  intros Hr Hm Hin. apply reachable_store_ok in Hr.
  destruct (Hr (__table__ m)) as [Hnn _].
  { unfold metadata. apply list_elem_of_In, in_map. by apply list_elem_of_In. }
  rewrite Forall_forall in Hnn. by apply Hnn.
Qed.

Lemma not_null_required t r c :
  not_null_ok t r = true -> required t c = true -> get r c <> VNone.
Proof.
  unfold not_null_ok, required, column_of. rewrite forallb_forall.
  intros Hall Hreq.
  destruct (head _) as [[n col]|] eqn:Hhead; [|done]. simpl in Hreq.
  assert (In (n, col) (List.filter (fun nc => bool_decide (nc.1 = c))
                                   (columns t))) as Hin.
  { destruct (List.filter _ _); simplify_eq/=. by left. }
  apply filter_In in Hin as [Hin Hn]. apply bool_decide_eq_true_1 in Hn.
  simpl in Hn. subst n. apply Hall in Hin. simpl in Hin.
  apply negb_true_iff in Hreq. rewrite Hreq in Hin. simpl in Hin.
  by destruct (get r c).
Qed.

(** ** Uniqueness of sequence positions, course titles and user names *)

(** C4. Within a course no two [videos_courses] rows share a sequence
    position: in every reachable store two rows with the same course and
    the same [video_seq] are one row, and inserting a second row with
    the (course, sequence) pair of a row just inserted is rejected with
    a uniqueness violation, whatever its video and its id are. *)
Theorem videos_courses_sequence_unique :
  (forall db i j r1 r2 c,
     reachable db ->
     rows db "videos_courses" !! i = Some r1 ->
     rows db "videos_courses" !! j = Some r2 ->
     get r1 "course_id" = VInt c -> get r2 "course_id" = VInt c ->
     get r1 "video_seq" = get r2 "video_seq" ->
     i = j)
  /\ (forall db obj1 db1 obj2 c,
        insert db (__table__ VideoCourse) obj1 = Ok db1 ->
        get obj1 "course_id" = VInt c -> get obj2 "course_id" = VInt c ->
        get obj2 "video_seq" = get obj1 "video_seq" ->
        insert db1 (__table__ VideoCourse) obj2
        = Raise (IntegrityError UniqueViolation)).
Proof.
  split.
  - intros db i j r1 r2 c Hr Hi Hj Hc1 Hc2 Hseq.
    assert (Hnn : not_null_ok (__table__ VideoCourse) r1 = true).
    { apply (reachable_not_null db VideoCourse); [done|in_list|].
      by eapply list_elem_of_lookup_2. }
    apply (reachable_key_unique db VideoCourse ["course_id"; "video_seq"]
             i j r1 r2); [done|in_list| |done..|].
    + vm_compute unique_keys. in_list.
    + intros col Hcol. set_unfold. destruct Hcol as [->|[->|[]]].
      * by rewrite Hc1, Hc2.
      * split; [done|]. by eapply not_null_required.
  - intros db obj1 db1 obj2 c H1 Hc1 Hc2 Hseq.
    assert (Hs1 : get obj1 "video_seq" <> VNone).
    { pose proof H1 as (Hnn1 & _)%insert_Ok_inv.
      apply (not_null_required _ _ "video_seq") in Hnn1; [|done].
      by rewrite get_insert_row_plain in Hnn1. }
    eapply (insert_twice_conflict _ _ _ _ _ ["course_id"; "video_seq"]);
      [done| |done| |].
    + vm_compute unique_keys. in_list.
    + intros col Hcol. set_unfold.
      destruct Hcol as [->|[->|[]]]; split; congruence.
    + unfold not_null_ok. simpl.
      rewrite (get_insert_row_plain _ _ _ "video_seq") by done.
      rewrite get_insert_row. simpl. rewrite bind_param_key by done.
      rewrite Hseq. by destruct (get obj1 "video_seq").
Qed.

(** C5. No two courses of one creator have the same title: in every
    reachable store two [courses] rows with the same [creator_id] and
    the same [title] are one row, and inserting a second course with the
    title and creator of a course just inserted is rejected with a
    uniqueness violation. *)
Theorem courses_title_creator_unique :
  (forall db i j c1 c2,
     reachable db ->
     rows db "courses" !! i = Some c1 ->
     rows db "courses" !! j = Some c2 ->
     get c1 "creator_id" = get c2 "creator_id" ->
     get c1 "title" = get c2 "title" ->
     i = j)
  /\ (forall db obj1 db1 obj2,
        insert db (__table__ Course) obj1 = Ok db1 ->
        get obj2 "creator_id" = get obj1 "creator_id" ->
        get obj2 "title" = get obj1 "title" ->
        insert db1 (__table__ Course) obj2
        = Raise (IntegrityError UniqueViolation)).
Proof.
  split.
  - intros db i j c1 c2 Hr Hi Hj Hcreator Htitle.
    assert (Hnn : not_null_ok (__table__ Course) c1 = true).
    { apply (reachable_not_null db Course); [done|in_list|].
      by eapply list_elem_of_lookup_2. }
    apply (reachable_key_unique db Course ["title"; "creator_id"]
             i j c1 c2); [done|in_list| |done..|].
    + vm_compute unique_keys. in_list.
    + intros col Hcol. set_unfold.
      destruct Hcol as [->|[->|[]]]; (split; [done|]);
        by eapply not_null_required.
  - intros db obj1 db1 obj2 H1 Hcreator Htitle.
    assert (Hs1 : get obj1 "title" <> VNone /\ get obj1 "creator_id" <> VNone).
    { pose proof H1 as (Hnn1 & _)%insert_Ok_inv.
      split.
      - apply (not_null_required _ _ "title") in Hnn1; [|done].
        by rewrite get_insert_row_plain in Hnn1.
      - apply (not_null_required _ _ "creator_id") in Hnn1; [|done].
        by rewrite get_insert_row_plain in Hnn1. }
    destruct Hs1 as [Ht1 Hc1].
    eapply (insert_twice_conflict _ _ _ _ _ ["title"; "creator_id"]);
      [done| |done| |].
    + vm_compute unique_keys. in_list.
    + intros col Hcol. set_unfold.
      destruct Hcol as [->|[->|[]]]; split; congruence.
    + unfold not_null_ok. simpl.
      rewrite (get_insert_row_plain _ _ _ "title") by done.
      rewrite (get_insert_row_plain _ _ _ "creator_id") by done.
      rewrite get_insert_row. simpl. rewrite bind_param_key by done.
      rewrite Htitle, Hcreator.
      by destruct (get obj1 "title"), (get obj1 "creator_id").
Qed.

(** ** The session *)

Lemma flush_objects_app db l1 l2 :
  flush_objects db (l1 ++ l2)
  = match flush_objects db l1 with
    | Ok db1 => flush_objects db1 l2
    | Raise e => Raise e
    end.
Proof.
  revert db. induction l1 as [|[m obj] l1 IH]; intros db; simpl; [done|].
  destruct (insert db (__table__ m) obj); [apply IH|done].
Qed.

Lemma is_none_bind_param rs rs' obj n c :
  is_none (bind_param rs obj n c) = is_none (bind_param rs' obj n c).
Proof.
  unfold bind_param.
  destruct (obj !! n) as [[]|], (col_default c), (col_type c),
    (is_primary_key c); done.
Qed.

Lemma not_null_ok_rows t rs rs' obj :
  not_null_ok t (insert_row t rs obj) = not_null_ok t (insert_row t rs' obj).
Proof.
  unfold not_null_ok.
  assert (forall cols,
    forallb (fun nc => is_nullable nc.2
                       || negb (is_none (get (insert_row t rs obj) nc.1))) cols
    = forallb (fun nc => is_nullable nc.2
                         || negb (is_none (get (insert_row t rs' obj) nc.1)))
              cols) as Hext; [|apply Hext].
  induction cols as [|nc cols IH]; simpl; [done|].
  rewrite IH. do 3 f_equal. rewrite !get_insert_row.
  destruct (column_of t nc.1); [apply is_none_bind_param|done].
Qed.

(** A flush that succeeds inserted the object added last, after
    everything that was pending before it. *)
Lemma flush_add_inv s m obj s1 :
  flush (add s m obj) = (Ok (), s1) ->
  new s1 = [] /\ database s1 = database s
  /\ exists db0, flush_objects (transaction s) (new s) = Ok db0
                 /\ insert db0 (__table__ m) obj = Ok (transaction s1).
Proof.
  unfold flush, add. simpl. rewrite flush_objects_app.
  destruct (flush_objects (transaction s) (new s)) as [db0|e]; simpl; [|done].
  destruct (insert db0 (__table__ m) obj) as [db1|e] eqn:Hins; [|done].
  intros [= <-]. simpl. eauto.
Qed.

(** The row a successful INSERT stored, as seen from the object. *)
Lemma insert_stored db t obj db' :
  insert db t obj = Ok db' ->
  exists r, r = insert_row t (rows db (name t)) obj
            /\ rows db' (name t) = rows db (name t) ++ [r]
            /\ not_null_ok t r = true
            /\ (forall c, plain_column t c = true -> get r c = get obj c)
            /\ (forall r' key, r' ∈ rows db (name t) -> key ∈ unique_keys t ->
                               key_conflict key r r' = false).
Proof.
  intros (Hnn & Hu & _ & ->)%insert_Ok_inv.
  eexists. split; [done|].
  split; [by rewrite rows_insert_eq|]. split; [done|]. split.
  - intros c Hc. by apply get_insert_row_plain.
  - intros r' key Hr' Hkey. by eapply unique_ok_no_conflict.
Qed.

Lemma users_insert_duplicate db r1 u2 :
  r1 ∈ rows db "users" ->
  not_null_ok (__table__ User) r1 = true ->
  complete (__table__ User) u2 = true ->
  get u2 "username" = get r1 "username" \/ get u2 "email" = get r1 "email" ->
  insert db (__table__ User) u2 = Raise (IntegrityError UniqueViolation).
Proof.
  intros Hr1 Hnn Hcomplete Hsame.
  assert (Hnn2 : not_null_ok (__table__ User)
                   (insert_row (__table__ User)
                      (rows db (name (__table__ User))) u2) = true).
  { unfold complete in Hcomplete. by rewrite (not_null_ok_rows _ _ []). }
  destruct Hsame as [Hsame|Hsame].
  - apply (insert_duplicate_key _ _ _ ["username"] r1); [done| |done|].
    + vm_compute unique_keys. in_list.
    + apply key_conflict_true. intros c Hc. set_unfold.
      destruct Hc as [->|[]]. rewrite get_insert_row_plain by done.
      split; [done|]. rewrite Hsame. by eapply not_null_required.
  - apply (insert_duplicate_key _ _ _ ["email"] r1); [done| |done|].
    + vm_compute unique_keys. in_list.
    + apply key_conflict_true. intros c Hc. set_unfold.
      destruct Hc as [->|[]]. rewrite get_insert_row_plain by done.
      split; [done|]. rewrite Hsame. by eapply not_null_required.
Qed.

(** C6. User names and e-mail addresses are unique across all users: in
    every reachable store two [users] rows with the same username, or
    with the same email, are one row; once a user is committed,
    committing another complete user with the same username or the same
    email fails with a uniqueness violation and leaves the store as it
    was; and so does committing the two in one transaction. *)
Theorem users_username_email_unique :
  (forall db i j u1 u2,
     reachable db ->
     rows db "users" !! i = Some u1 ->
     rows db "users" !! j = Some u2 ->
     get u1 "username" = get u2 "username" \/ get u1 "email" = get u2 "email" ->
     i = j)
  /\ (forall s u1 s1 u2,
        commit (add s User u1) = (Ok (), s1) ->
        complete (__table__ User) u2 = true ->
        get u2 "username" = get u1 "username"
        \/ get u2 "email" = get u1 "email" ->
        commit (add s1 User u2)
        = (Raise (IntegrityError UniqueViolation), s1))
  /\ (forall s u1 s1 u2,
        flush (add s User u1) = (Ok (), s1) ->
        complete (__table__ User) u2 = true ->
        get u2 "username" = get u1 "username"
        \/ get u2 "email" = get u1 "email" ->
        commit (add (add s User u1) User u2)
        = (Raise (IntegrityError UniqueViolation), rollback s)).
Proof.
  assert (Hrow : forall s u1 s1 u2,
    flush (add s User u1) = (Ok (), s1) ->
    complete (__table__ User) u2 = true ->
    get u2 "username" = get u1 "username"
    \/ get u2 "email" = get u1 "email" ->
    insert (transaction s1) (__table__ User) u2
    = Raise (IntegrityError UniqueViolation)).
  { intros s u1 s1 u2 Hflush Hcomplete Hsame.
    apply flush_add_inv in Hflush as (Hnew & _ & db0 & _ & Hins).
    apply insert_stored in Hins as (r1 & _ & Hrows & Hnn & Hplain & _).
    apply (users_insert_duplicate _ r1); [|done..|].
    - simpl in Hrows. rewrite Hrows. apply elem_of_app. right. by left.
    - by rewrite !Hplain. }
  split; [|split].
  - intros db i j u1 u2 Hr Hi Hj Hsame.
    assert (Hnn : not_null_ok (__table__ User) u1 = true).
    { apply (reachable_not_null db User); [done|in_list|].
      by eapply list_elem_of_lookup_2. }
    destruct Hsame as [Hsame|Hsame].
    + apply (reachable_key_unique db User ["username"] i j u1 u2);
        [done|in_list| |done..|].
      * vm_compute unique_keys. in_list.
      * intros c Hc. set_unfold. destruct Hc as [->|[]].
        split; [done|]. by eapply not_null_required.
    + apply (reachable_key_unique db User ["email"] i j u1 u2);
        [done|in_list| |done..|].
      * vm_compute unique_keys. in_list.
      * intros c Hc. set_unfold. destruct Hc as [->|[]].
        split; [done|]. by eapply not_null_required.
  - intros s u1 s1 u2 Hcommit Hcomplete Hsame.
    unfold commit in Hcommit.
    destruct (flush (add s User u1)) as [[[]|e] s'] eqn:Hflush; [|done].
    injection Hcommit as <-.
    unfold commit, flush, add, rollback.
    cbn [new transaction database app flush_objects].
    by rewrite (Hrow s u1 s' u2).
  - intros s u1 s1 u2 Hflush Hcomplete Hsame.
    pose proof (Hrow s u1 s1 u2 Hflush Hcomplete Hsame) as Hins.
    unfold flush, add in Hflush.
    cbn [new transaction database] in Hflush.
    unfold commit, flush, add, rollback.
    cbn [new transaction database].
    rewrite flush_objects_app.
    destruct (flush_objects (transaction s) (new s ++ [(User, u1)]))
      as [db1|e]; [|done].
    injection Hflush as <-. cbn [transaction flush_objects] in *.
    by rewrite Hins.
Qed.

(** ** Cascading deletes *)

(** The recursion of [delete_where] through the declared foreign keys,
    table by table. *)
Lemma delete_videos_courses fuel db p :
  delete_where metadata (S fuel) db "videos_courses" p
  = Some (Ok (<["videos_courses" :=
                  List.filter (fun r => negb (p r))
                              (rows db "videos_courses")]> db)).
Proof. reflexivity. Qed.

Lemma delete_courses fuel db p :
  delete_where metadata (S (S fuel)) db "courses" p
  = let victims := List.filter p (rows db "courses") in
    let db1 :=
      <["videos_courses" :=
          List.filter (fun r => negb (refers victims "course_id" "id" r))
                      (rows db "videos_courses")]> db in
    Some (Ok (<["courses" := List.filter (fun r => negb (p r))
                                         (rows db1 "courses")]> db1)).
Proof. reflexivity. Qed.

Lemma delete_videos fuel db p :
  delete_where metadata (S (S fuel)) db "videos" p
  = let victims := List.filter p (rows db "videos") in
    let db1 :=
      <["videos_courses" :=
          List.filter (fun r => negb (refers victims "video_id" "id" r))
                      (rows db "videos_courses")]> db in
    Some (Ok (<["videos" := List.filter (fun r => negb (p r))
                                        (rows db1 "videos")]> db1)).
Proof. reflexivity. Qed.

Lemma delete_users fuel db p :
  delete_where metadata (S (S (S fuel))) db "users" p
  = let victims := List.filter p (rows db "users") in
    match delete_where metadata (S (S fuel)) db "courses"
            (refers victims "creator_id" "id") with
    | Some (Ok db1) =>
        Some (Ok (<["users" := List.filter (fun r => negb (p r))
                                           (rows db1 "users")]> db1))
    | other => other
    end.
Proof. reflexivity. Qed.




(** ** Signing up and authenticating *)

Lemma head_filter_unique (f : Row -> bool) l u :
  u ∈ l -> f u = true -> (forall u', u' ∈ l -> f u' = true -> u' = u) ->
  head (List.filter f l) = Some u.
Proof.
  intros Hu Hf Huniq.
  destruct (List.filter f l) as [|x rest] eqn:Hfl; simpl.
  - assert (In u (List.filter f l)) as Hin
      by (apply filter_In; split; [by apply list_elem_of_In|done]).
    by rewrite Hfl in Hin.
  - assert (In x (List.filter f l)) as Hin by (rewrite Hfl; by left).
    apply filter_In in Hin as [Hx Hfx]. f_equal.
    apply Huniq; [by apply list_elem_of_In|done].
Qed.

Lemma head_filter_none (f : Row -> bool) l :
  (forall u, u ∈ l -> f u = false) -> head (List.filter f l) = None.
Proof.
  intros Hnone. destruct (List.filter f l) as [|x rest] eqn:Hfl; [done|].
  assert (In x (List.filter f l)) as Hin by (rewrite Hfl; by left).
  apply filter_In in Hin as [Hx Hfx].
  apply list_elem_of_In, Hnone in Hx. congruence.
Qed.

(** The row built for an object carries every attribute that was set on
    it, provided each attribute is a column of the table. *)
Lemma insert_row_stored_as t rs obj :
  (forall n v, obj !! n = Some v -> is_Some (column_of t n)) ->
  stored_as obj (insert_row t rs obj).
Proof.
  intros Hcols n v Hn Hv. destruct (Hcols n v Hn) as [c Hc].
  unfold insert_row. rewrite (lookup_insert_row (bind_param rs obj)).
  unfold column_of in Hc.
  destruct (head _) as [[m c']|]; simplify_eq/=.
  f_equal. apply bind_param_set; [|done]. unfold get. by rewrite Hn.
Qed.

Section CredentialProperties.

Variable Salt : Type.
Variable generate_password_hash : Salt -> option string -> result string.
Variable check_password_hash : value -> option string -> result bool.

Local Abbreviation signup' := (signup Salt generate_password_hash).
Local Abbreviation authenticate' := (authenticate check_password_hash).

(** *** What is assumed of Flask-Bcrypt *)

(** A generated hash verifies against the password it was generated
    from. *)
Hypothesis check_generated : forall salt password h,
  generate_password_hash salt password = Ok h ->
  check_password_hash (VStr (decode h)) password = Ok true.

(** A hash is never the password it was generated from. *)
Hypothesis hash_not_plaintext : forall salt password h,
  generate_password_hash salt (Some password) = Ok h ->
  decode h <> password.

(** The salt is part of the hash: distinct salts give distinct hashes
    of one password. *)
Hypothesis hash_salted : forall salt1 salt2 password h1 h2,
  generate_password_hash salt1 password = Ok h1 ->
  generate_password_hash salt2 password = Ok h2 ->
  salt1 <> salt2 -> decode h1 <> decode h2.

(** What [signup] does when it returns. *)
Lemma signup_Ok_inv salt s email username password first_name last_name
    image_url user s1 :
  signup' salt s email username password first_name last_name image_url
  = (Ok user, s1) ->
  exists h,
    generate_password_hash salt password = Ok h
    /\ user = list_to_map [("username", of_text username);
                           ("password", VStr (decode h));
                           ("first_name", of_text first_name);
                           ("last_name", of_text last_name);
                           ("image_url", of_text image_url);
                           ("email", of_text email)]
    /\ get user "password" = VStr (decode h)
    /\ s1 = add s User user.
Proof using Type.
  unfold signup.
  destruct (generate_password_hash salt password) as [h|e]; [|done].
  intros [= <- <-]. by exists h.
Qed.

(** C10. Every field of the user [signup] returns other than the
    password is the argument it was given: username, email, first and
    last name, and the image URL, which is kept as supplied, [None]
    included (no default is substituted at construction).  No id is
    set.  Only the password is transformed: it is the decoded hash. *)
Theorem signup_fields_verbatim salt s email username password first_name
    last_name image_url user s1 :
  signup' salt s email username password first_name last_name image_url
  = (Ok user, s1) ->
  user !! "username" = Some (of_text username)
  /\ user !! "email" = Some (of_text email)
  /\ user !! "first_name" = Some (of_text first_name)
  /\ user !! "last_name" = Some (of_text last_name)
  /\ user !! "image_url" = Some (of_text image_url)
  /\ user !! "id" = None
  /\ exists h, generate_password_hash salt password = Ok h
               /\ user !! "password" = Some (VStr (decode h)).
Proof using Type.
  intros (h & Hh & -> & _ & _)%signup_Ok_inv.
  repeat split; try done. by exists h.
Qed.

(** C3. The password field of the user [signup] returns is the hash
    generated from the plaintext under the salt of the call, never the
    plaintext itself; and that hash is what an INSERT of the user
    stores. *)
Theorem signup_password_hashed salt s email username password first_name
    last_name image_url user s1 :
  signup' salt s email username password first_name last_name image_url
  = (Ok user, s1) ->
  exists h,
    generate_password_hash salt password = Ok h
    /\ get user "password" = VStr (decode h)
    /\ get user "password" <> of_text password
    /\ forall rs, get (insert_row (__table__ User) rs user) "password"
                  = VStr (decode h).
Proof using hash_not_plaintext.
  intros (h & Hh & _ & Hpw & _)%signup_Ok_inv. exists h.
  split; [done|]. split; [done|]. split.
  - rewrite Hpw. destruct password as [p|]; [|done].
    intros [= He]. by apply (hash_not_plaintext salt p h).
  - intros rs. by rewrite get_insert_row_plain.
Qed.


(** C7. [signup] only stages the new user: when it returns, the
    committed store and the open transaction are what they were, the
    user is the last pending object, a rollback gives the session a
    rollback gave before the call, and a commit that fails leaves the
    store without the user. *)
Theorem signup_stages_only salt s email username password first_name
    last_name image_url :
  let out :=
    signup' salt s email username password first_name last_name image_url in
  database out.2 = database s
  /\ transaction out.2 = transaction s
  /\ rollback out.2 = rollback s
  /\ (forall user, out.1 = Ok user -> new out.2 = new s ++ [(User, user)])
  /\ (forall e, out.1 = Raise e -> out.2 = s)
  /\ (forall e s2, commit out.2 = (Raise e, s2) -> s2 = rollback s).
Proof using Type.
  unfold signup.
  destruct (generate_password_hash salt password) as [h|e]; simpl.
  - repeat split; try done.
    + by intros user [= <-].
    + intros e s2. unfold commit, flush. simpl.
      destruct (flush_objects _ _); [done|]. by intros [= _ <-].
  - repeat split; try done.
    intros e' s2. unfold commit, flush.
    destruct (flush_objects _ _); [done|]. by intros [= _ <-].
Qed.

(** The three ways [authenticate] returns. *)
Lemma authenticate_found s s' username password u :
  flush s = (Ok (), s') ->
  u ∈ rows (transaction s') "users" ->
  get u "username" = of_text username ->
  (forall u', u' ∈ rows (transaction s') "users" ->
              get u' "username" = of_text username -> u' = u) ->
  authenticate' s username password
  = match check_password_hash (get u "password") password with
    | Ok true => (Ok (AuthUser u), s')
    | Ok false => (Ok AuthFalse, s')
    | Raise e => (Raise e, s')
    end.
Proof using Type.
  intros Hflush Hu Hname Huniq. unfold authenticate, query_filter_by_first.
  rewrite Hflush. simpl tablename.
  rewrite (head_filter_unique _ _ u); [done..| |].
  - by apply bool_decide_eq_true_2.
  - intros u' Hu' Hname'%bool_decide_eq_true_1. by apply Huniq.
Qed.

Lemma authenticate_unknown s s' username password :
  flush s = (Ok (), s') ->
  (forall u, u ∈ rows (transaction s') "users" ->
             get u "username" <> of_text username) ->
  authenticate' s username password = (Ok AuthFalse, s').
Proof using Type.
  intros Hflush Hnone. unfold authenticate, query_filter_by_first.
  rewrite Hflush. simpl tablename. rewrite head_filter_none; [done|].
  intros u Hu. apply bool_decide_eq_false_2. by apply Hnone.
Qed.


(** C1. A user created by [signup] and committed is returned by a
    later [authenticate] with the same username and the plaintext
    password: the result is the row stored for that user, the last row
    of [users], carrying every attribute [signup] set. *)
Theorem signup_commit_authenticate salt s email username password
    first_name last_name image_url user s1 s2 :
  signup' salt s email username password first_name last_name image_url
  = (Ok user, s1) ->
  commit s1 = (Ok (), s2) ->
  exists r,
    authenticate' s2 username password = (Ok (AuthUser r), s2)
    /\ last (rows (database s2) "users") = Some r
    /\ stored_as user r.
Proof using check_generated.
  clear hash_not_plaintext hash_salted.
  intros (h & Hh & Huser & Hpw & ->)%signup_Ok_inv Hcommit.
  unfold commit in Hcommit.
  destruct (flush (add s User user)) as [[[]|e] s'] eqn:Hflush; [|done].
  injection Hcommit as <-.
  apply flush_add_inv in Hflush as (_ & _ & db0 & _ & Hins).
  apply insert_stored in Hins as (r & Hr & Hrows & Hnn & Hplain & Hfresh).
  simpl name in *. exists r.
  assert (Hname : get r "username" = of_text username).
  { rewrite Hplain by done. by rewrite Huser. }
  set (s2 := {| database := transaction s'; transaction := transaction s';
                new := [] |}).
  assert (Hflush2 : flush s2 = (Ok (), s2)) by done.
  split; [|split].
  - rewrite (authenticate_found s2 s2 username password r Hflush2); simpl.
    + rewrite Hplain, Hpw by done.
      by rewrite (check_generated salt password h).
    + rewrite Hrows. apply elem_of_app. right. by left.
    + done.
    + rewrite Hrows. intros u' [Hu'|Hu']%elem_of_app Hname'.
      * exfalso.
        assert (key_conflict ["username"] r u' = false) as Hc.
        { apply Hfresh; [done|]. vm_compute unique_keys. in_list. }
        rewrite key_conflict_true in Hc; [done|].
        intros c Hc'. set_unfold. destruct Hc' as [->|[]].
        split; [congruence|]. by eapply not_null_required.
      * set_unfold. by destruct Hu' as [->|[]].
  - simpl. rewrite Hrows. by rewrite last_snoc.
  - rewrite Hr. apply insert_row_stored_as. intros n v Hn.
    rewrite Huser in Hn. apply elem_of_list_to_map_2 in Hn.
    set_unfold. by destruct Hn as [|[|[|[|[|[|[]]]]]]]; simplify_eq.
Qed.

End CredentialProperties.

(** * The properties on the stand-in *)

Example ann_persisted :
  rows (database Standin.session_ann) "users" = [Standin.ann_row].
Proof. reflexivity. Qed.

Example library_rows :
  map (fun t => length (rows Standin.library t))
      ["users"; "courses"; "videos"; "videos_courses"]
  = [1; 1; 2; 1]%nat.
Proof. reflexivity. Qed.

Lemma standin_check_generated salt password h :
  Standin.generate_password_hash salt password = Ok h ->
  Standin.check_password_hash (VStr (decode h)) password = Ok true.
Proof.
  destruct password as [[|c p]|]; simpl; intros [= <-]. simpl.
  by rewrite bool_decide_eq_true_2.
Qed.

Lemma standin_hash_not_plaintext salt password h :
  Standin.generate_password_hash salt (Some password) = Ok h ->
  decode h <> password.
Proof.
  destruct password as [|c p]; simpl; intros [= <-]. unfold decode.
  intros He. apply (f_equal String.length) in He. simpl in He. lia.
Qed.



Lemma library_reachable : reachable Standin.library.
Proof.
  assert (reachable Standin.db_users) as H1.
  { apply (reachable_insert ∅ User Standin.ann); [constructor|in_list|].
    reflexivity. }
  assert (reachable Standin.db_course) as H2.
  { apply (reachable_insert _ Course (Standin.course "Rocq" 1) _ H1);
      [in_list|]. reflexivity. }
  assert (reachable Standin.db_videos) as H3.
  { eapply (reachable_insert _ Video (Standin.video "Tactics"));
      [eapply (reachable_insert _ Video (Standin.video "Intro") _ H2);
         [in_list|reflexivity]
      |in_list|reflexivity]. }
  apply (reachable_insert _ VideoCourse (Standin.video_course 1 1 1) _ H3);
    [in_list|]. reflexivity.
Qed.

Lemma signup_commit_authenticate_witness :
  exists r,
    authenticate Standin.check_password_hash Standin.session_ann
                 (Some "ann") (Some "secret")
    = (Ok (AuthUser r), Standin.session_ann)
    /\ last (rows (database Standin.session_ann) "users") = Some r
    /\ stored_as Standin.ann r.
Proof.
  apply (signup_commit_authenticate ascii Standin.generate_password_hash
           Standin.check_password_hash standin_check_generated
           "s"%char Standin.session0 (Some "ann@example.org") (Some "ann")
           (Some "secret") (Some "Ann") (Some "Lee") None Standin.ann
           (add Standin.session0 User Standin.ann) Standin.session_ann).
  - reflexivity.
  - reflexivity.
Defined.


Lemma signup_password_hashed_witness :
  exists h,
    Standin.generate_password_hash "s" (Some "secret") = Ok h
    /\ get Standin.ann "password" = VStr (decode h)
    /\ get Standin.ann "password" <> of_text (Some "secret")
    /\ forall rs, get (insert_row (__table__ User) rs Standin.ann) "password"
                  = VStr (decode h).
Proof.
  apply (signup_password_hashed ascii Standin.generate_password_hash
           standin_hash_not_plaintext
           "s"%char Standin.session0 (Some "ann@example.org") (Some "ann")
           (Some "secret") (Some "Ann") (Some "Lee") None Standin.ann
           (add Standin.session0 User Standin.ann)).
  reflexivity.
Defined.

Lemma videos_courses_sequence_unique_witness :
  insert Standin.library (__table__ VideoCourse) (Standin.video_course 1 2 1)
  = Raise (IntegrityError UniqueViolation)
  /\ (0 = 0)%nat.
Proof.
  destruct videos_courses_sequence_unique as [Hrows Hinsert]. split.
  - apply (Hinsert Standin.db_videos (Standin.video_course 1 1 1)
             Standin.library (Standin.video_course 1 2 1) 1);
      reflexivity.
  - apply (Hrows Standin.library 0%nat 0%nat
             (insert_row (__table__ VideoCourse) []
                         (Standin.video_course 1 1 1))
             (insert_row (__table__ VideoCourse) []
                         (Standin.video_course 1 1 1)) 1 library_reachable);
      reflexivity.
Defined.

Lemma courses_title_creator_unique_witness :
  insert Standin.db_course (__table__ Course) (Standin.course "Rocq" 1)
  = Raise (IntegrityError UniqueViolation)
  /\ (0 = 0)%nat.
Proof.
  destruct courses_title_creator_unique as [Hrows Hinsert]. split.
  - apply (Hinsert Standin.db_users (Standin.course "Rocq" 1)
             Standin.db_course (Standin.course "Rocq" 1));
      reflexivity.
  - apply (Hrows Standin.library 0%nat 0%nat
             (insert_row (__table__ Course) [] (Standin.course "Rocq" 1))
             (insert_row (__table__ Course) [] (Standin.course "Rocq" 1))
             library_reachable);
      reflexivity.
Defined.

Lemma users_username_email_unique_witness :
  commit (add Standin.session_ann User Standin.ann_again)
  = (Raise (IntegrityError UniqueViolation), Standin.session_ann)
  /\ commit (add (add Standin.session0 User Standin.ann) User Standin.ann)
     = (Raise (IntegrityError UniqueViolation), rollback Standin.session0)
  /\ (0 = 0)%nat.
Proof.
  destruct users_username_email_unique as (Hrows & Hcommitted & Htogether).
  split; [|split].
  - apply (Hcommitted Standin.session0 Standin.ann Standin.session_ann
             Standin.ann_again).
    + reflexivity.
    + reflexivity.
    + left. reflexivity.
  - apply (Htogether Standin.session0 Standin.ann
             (flush (add Standin.session0 User Standin.ann)).2 Standin.ann).
    + reflexivity.
    + reflexivity.
    + right. reflexivity.
  - apply (Hrows Standin.library 0%nat 0%nat Standin.ann_row Standin.ann_row
             library_reachable).
    + reflexivity.
    + reflexivity.
    + left. reflexivity.
Defined.

Lemma signup_stages_only_witness :
  database (Standin.signup_ann Standin.session_ann).2
  = database Standin.session_ann
  /\ rollback (Standin.signup_ann Standin.session_ann).2
     = rollback Standin.session_ann
  /\ commit (Standin.signup_ann Standin.session_ann).2
     = (Raise (IntegrityError UniqueViolation), rollback Standin.session_ann).
Proof.
  destruct (signup_stages_only ascii Standin.generate_password_hash
              "s"%char Standin.session_ann (Some "ann@example.org")
              (Some "ann") (Some "secret") (Some "Ann") (Some "Lee") None)
    as (Hdb & _ & Hrb & _ & _ & Hfail).
  split; [exact Hdb|]. split; [exact Hrb|].
  rewrite <- (Hfail (IntegrityError UniqueViolation)
                (commit (Standin.signup_ann Standin.session_ann).2).2).
  - reflexivity.
  - reflexivity.
Defined.

Lemma library_users : rows Standin.library "users" = [Standin.ann_row].
Proof. reflexivity. Qed.




Lemma signup_fields_verbatim_witness :
  Standin.ann !! "username" = Some (VStr "ann")
  /\ Standin.ann !! "email" = Some (VStr "ann@example.org")
  /\ Standin.ann !! "first_name" = Some (VStr "Ann")
  /\ Standin.ann !! "last_name" = Some (VStr "Lee")
  /\ Standin.ann !! "image_url" = Some VNone
  /\ Standin.ann !! "id" = None
  /\ exists h, Standin.generate_password_hash "s" (Some "secret") = Ok h
               /\ Standin.ann !! "password" = Some (VStr (decode h)).
Proof.
  apply (signup_fields_verbatim ascii Standin.generate_password_hash
           "s"%char Standin.session0 (Some "ann@example.org") (Some "ann")
           (Some "secret") (Some "Ann") (Some "Lee") None Standin.ann
           (add Standin.session0 User Standin.ann)).
  reflexivity.
Defined.

(** * Further properties *)

(** ** Representations *)

Lemma lacks_colon_uint d : lacks ":" (NilEmpty.string_of_uint d) = true.
Proof.
  induction d; cbn [NilEmpty.string_of_uint lacks]; [done|..];
    rewrite IHd; reflexivity.
Qed.

Lemma lacks_colon_str_int z : lacks ":" (str (VInt z)) = true.
Proof.
  assert (Hu : forall d, lacks ":" (NilZero.string_of_uint d) = true).
  { intros d. destruct d; try apply lacks_colon_uint. reflexivity. }
  cbn [str]. destruct (Z.to_int z); cbn [NilZero.string_of_int lacks];
    by rewrite ?Hu.
Qed.

Lemma append_until c s1 s2 t1 t2 :
  lacks c s1 = true -> lacks c s2 = true ->
  s1 +:+ String c t1 = s2 +:+ String c t2 -> s1 = s2.
Proof.
  revert s2. induction s1 as [|a s1 IH]; intros [|b s2]; simpl; intros H1 H2 He.
  - done.
  - injection He as <- _. by rewrite Ascii.eqb_refl in H2.
  - injection He as -> _. by rewrite Ascii.eqb_refl in H1.
  - injection He as <- He. f_equal.
    apply andb_prop in H1 as [_ H1]. apply andb_prop in H2 as [_ H2]. eauto.
Qed.

Lemma str_int_inj z1 z2 : str (VInt z1) = str (VInt z2) -> z1 = z2.
Proof.
  simpl. intros He. apply to_int_inj.
  assert (Hz : forall z, Z.to_int z <> Decimal.Pos Decimal.Nil
                         /\ Z.to_int z <> Decimal.Neg Decimal.Nil).
  { intros [|p|p]; simpl; split; try discriminate;
      intros [= H]; by apply Unsigned.to_uint_nonnil in H. }
  destruct (Hz z1) as [? ?], (Hz z2) as [? ?].
  apply (f_equal NilZero.int_of_string) in He.
  rewrite !NilZero.isi in He by done. by injection He.
Qed.

(** X1. [User.__repr__] identifies a user: two users with different
    integer ids never have the same representation, whatever their
    names and addresses are. *)
Theorem User_repr_identifies u1 u2 k1 k2 :
  get u1 "id" = VInt k1 -> get u2 "id" = VInt k2 -> k1 <> k2 ->
  User__repr__ u1 <> User__repr__ u2.
Proof.
  unfold User__repr__. intros -> -> Hne He. apply Hne, str_int_inj.
  simpl in He. injection He as He.
  eapply (append_until ":"); [apply lacks_colon_str_int..|exact He].
Qed.

(** X2. [Course.__repr__] identifies a course: two courses with
    different integer ids never have the same representation. *)
Theorem Course_repr_identifies c1 c2 k1 k2 :
  get c1 "id" = VInt k1 -> get c2 "id" = VInt k2 -> k1 <> k2 ->
  Course__repr__ c1 <> Course__repr__ c2.
Proof.
  unfold Course__repr__. intros -> -> Hne He. apply Hne, str_int_inj.
  simpl in He. injection He as He.
  eapply (append_until ":"); [apply lacks_colon_str_int..|exact He].
Qed.

(** ** Keys and references *)

Lemma models_cases (P : Model -> Prop) m :
  m ∈ models -> P User -> P Course -> P Video -> P VideoCourse -> P m.
Proof.
  unfold models. intros Hm HU HC HV HL.
  repeat (apply elem_of_cons in Hm as [->|Hm]; [done|]).
  by apply elem_of_nil in Hm.
Qed.

(** X3. In every reachable store the [id] of a row is never NULL and
    identifies the row within its table, for each of the four tables. *)
Theorem reachable_primary_keys db m i j r1 r2 :
  reachable db -> m ∈ models ->
  rows db (tablename m) !! i = Some r1 ->
  rows db (tablename m) !! j = Some r2 ->
  get r1 "id" <> VNone /\ (get r1 "id" = get r2 "id" -> i = j).
Proof.
  intros Hr Hm Hi Hj.
  assert (Hnn : get r1 "id" <> VNone).
  { apply (not_null_required (__table__ m)).
    - apply (reachable_not_null db m); [done..|].
      by eapply list_elem_of_lookup_2.
    - by apply (models_cases (fun m => required (__table__ m) "id" = true) m). }
  split; [done|]. intros Hid.
  apply (reachable_key_unique db m ["id"] i j r1 r2); [done..| |done|done|].
  - apply (models_cases (fun m => ["id"] ∈ unique_keys (__table__ m)) m);
      [done|..]; vm_compute unique_keys; in_list.
  - intros c Hc. apply elem_of_cons in Hc as [->|Hc]; [done|].
    by apply elem_of_nil in Hc.
Qed.

(** *** When an INSERT succeeds *)



(** The key an integer primary key generates is above every key in
    the table. *)
Lemma next_id_fresh c rs r z :
  r ∈ rs -> get r c = VInt z -> z < next_id c rs.
Proof.
  unfold next_id. induction rs as [|x rs IH]; intros Hr Hz.
  - by apply elem_of_nil in Hr.
  - simpl. apply elem_of_cons in Hr as [<-|Hr].
    + rewrite Hz. lia.
    + specialize (IH Hr Hz). destruct (get x c); lia.
Qed.




Lemma generated_id t rs obj col :
  column_of t "id" = Some col -> col_type col = Integer ->
  is_primary_key col = true -> col_default col = None ->
  get obj "id" = VNone ->
  get (insert_row t rs obj) "id" = VInt (next_id "id" rs).
Proof.
  intros Hcol Hty Hpk Hdef Hid. rewrite get_insert_row, Hcol.
  unfold bind_param. rewrite Hty, Hpk, Hdef. unfold get in Hid.
  destruct (obj !! "id") as [v|]; simpl in Hid; by subst.
Qed.

Lemma existsb_false_intro {A} (f : A -> bool) l :
  (forall x, x ∈ l -> f x = false) -> existsb f l = false.
Proof.
  intros H. apply not_true_is_false. intros (x & Hx & Hf)%existsb_exists.
  apply list_elem_of_In, H in Hx. congruence.
Qed.

(** X4. A row that points at a missing parent is never stored: a course
    whose [creator_id] is no user's id, and a link row whose [course_id]
    is no course's id or whose [video_id] is no video's id, are rejected
    with an integrity error. *)
Theorem insert_dangling_reference (db : Store) (obj : Row) (k : Z) :
  (get obj "creator_id" = VInt k ->
   (forall u, u ∈ rows db "users" -> get u "id" <> VInt k) ->
   exists e, insert db (__table__ Course) obj = Raise (IntegrityError e))
  /\ (get obj "course_id" = VInt k ->
      (forall c, c ∈ rows db "courses" -> get c "id" <> VInt k) ->
      exists e, insert db (__table__ VideoCourse) obj
                = Raise (IntegrityError e))
  /\ (get obj "video_id" = VInt k ->
      (forall v, v ∈ rows db "videos" -> get v "id" <> VInt k) ->
      exists e, insert db (__table__ VideoCourse) obj
                = Raise (IntegrityError e)).
Proof.
  split; [|split]; intros Hk Hnone; unfold insert;
    (destruct (not_null_ok _ _); [|by eexists]);
    (destruct (unique_ok _ _ _); [|by eexists]);
    (destruct (foreign_keys_ok _ _ _) eqn:Hfk; [exfalso|by eexists]);
    unfold foreign_keys_ok in Hfk; simpl in Hfk.
  - rewrite (get_insert_row_plain _ _ _ "creator_id"), Hk in Hfk by done.
    rewrite existsb_false_intro in Hfk; [done|].
    intros u Hu. apply bool_decide_eq_false_2. by apply Hnone.
  - rewrite (get_insert_row_plain _ _ _ "course_id"), Hk in Hfk by done.
    rewrite existsb_false_intro in Hfk; [done|].
    intros u Hu. apply bool_decide_eq_false_2. by apply Hnone.
  - rewrite (get_insert_row_plain _ _ _ "video_id"), Hk in Hfk by done.
    rewrite (existsb_false_intro _ (rows db "videos")) in Hfk.
    + by rewrite !orb_false_r, andb_false_r in Hfk.
    + intros u Hu. apply bool_decide_eq_false_2. by apply Hnone.
Qed.




(** *** Referential integrity *)

Lemma Forall_filter_bool {A} (P : A -> Prop) (f : A -> bool) l :
  Forall P l -> Forall P (List.filter f l).
Proof.
  rewrite !Forall_forall. intros H x Hx. apply H.
  apply list_elem_of_In in Hx. apply filter_In in Hx as [Hx _].
  by apply list_elem_of_In.
Qed.

Lemma Forall_filter_both {A} (P Q : A -> Prop) (f : A -> bool) l :
  Forall P l -> (forall x, f x = true -> P x -> Q x) ->
  Forall Q (List.filter f l).
Proof.
  rewrite !Forall_forall. intros H HQ x Hx.
  apply list_elem_of_In in Hx. apply filter_In in Hx as [Hx Hf].
  apply HQ; [done|]. apply H. by apply list_elem_of_In.
Qed.

(** What the foreign keys of the four tables ask of a store. *)
Lemma referential_integrity_tables db :
  referential_integrity db <->
  Forall (fun r => parent_ok (rows db "users") "creator_id" r = true)
         (rows db "courses")
  /\ Forall (fun r => parent_ok (rows db "courses") "course_id" r = true
                      /\ parent_ok (rows db "videos") "video_id" r = true)
            (rows db "videos_courses").
Proof.
  unfold referential_integrity. split.
  - intros H. split.
    + assert (Hc := H (__table__ Course)). simpl in Hc.
      eapply Forall_impl; [apply Hc; unfold metadata; simpl; in_list|].
      intros r Hr. unfold foreign_keys_ok in Hr. simpl in Hr.
      by rewrite andb_true_r in Hr.
    + assert (Hl := H (__table__ VideoCourse)). simpl in Hl.
      eapply Forall_impl; [apply Hl; unfold metadata; simpl; in_list|].
      intros r Hr. unfold foreign_keys_ok in Hr. simpl in Hr.
      rewrite andb_true_r in Hr. by apply andb_prop in Hr.
  - intros [Hc Hl] t Ht. unfold metadata, models in Ht. simpl in Ht.
    repeat (apply elem_of_cons in Ht as [->|Ht]);
      [| | | |by apply elem_of_nil in Ht]; simpl.
    + by apply Forall_forall.
    + eapply Forall_impl; [exact Hc|]. intros r Hr.
      unfold foreign_keys_ok. simpl. by rewrite andb_true_r.
    + by apply Forall_forall.
    + eapply Forall_impl; [exact Hl|]. intros r [Hr1 Hr2].
      unfold foreign_keys_ok. simpl. unfold parent_ok in Hr1, Hr2.
      by rewrite Hr1, Hr2.
Qed.

(** A child that no deleted parent's cascade reached still has its
    parent after the delete. *)
Lemma parent_ok_cascade parents q col r :
  refers (List.filter q parents) col "id" r = false ->
  parent_ok parents col r = true ->
  parent_ok (List.filter (fun p => negb (q p)) parents) col r = true.
Proof.
  unfold parent_ok, refers.
  destruct (is_none (get r col)); [done|]. simpl. intros Hrefers Hex.
  apply existsb_exists.
  apply existsb_exists in Hex as (p & Hp & He). exists p. split; [|done].
  apply filter_In. split; [done|].
  apply negb_true_iff, not_true_is_false. intros Hq.
  assert (existsb (fun v => bool_decide (get v "id" = get r col))
                  (List.filter q parents) = true); [|congruence].
  apply existsb_exists. exists p. split; [|done]. by apply filter_In.
Qed.

Lemma filter_subseteq (f : Row -> bool) l : List.filter f l ⊆ l.
Proof.
  intros x Hx. apply list_elem_of_In in Hx. apply filter_In in Hx as [Hx _].
  by apply list_elem_of_In.
Qed.

Lemma referential_integrity_empty : referential_integrity ∅.
Proof. intros t _. rewrite rows_empty. constructor. Qed.

Lemma foreign_keys_ok_mono db db' t r :
  (forall tn, rows db tn ⊆ rows db' tn) ->
  foreign_keys_ok db t r = true -> foreign_keys_ok db' t r = true.
Proof.
  unfold foreign_keys_ok. rewrite !forallb_forall. intros Hsub H nc Hnc.
  specialize (H nc Hnc). destruct (col_fk nc.2) as [fk|]; [|done].
  apply orb_prop in H as [Hn|Hex]; [by rewrite Hn|].
  apply orb_true_iff. right. apply existsb_exists.
  apply existsb_exists in Hex as (p & Hp & He). exists p. split; [|done].
  by apply list_elem_of_In, Hsub, list_elem_of_In.
Qed.

Lemma referential_integrity_insert db t obj db' :
  t ∈ metadata -> referential_integrity db -> insert db t obj = Ok db' ->
  referential_integrity db'.
Proof.
  intros Ht Hri (_ & _ & Hfk & ->)%insert_Ok_inv.
  assert (Hsub : forall tn,
            rows db tn ⊆ rows (<[name t := rows db (name t)
                                   ++ [insert_row t (rows db (name t)) obj]]> db) tn).
  { intros tn. destruct (decide (name t = tn)) as [<-|Hne].
    - rewrite rows_insert_eq. intros x Hx. apply elem_of_app. by left.
    - by rewrite rows_insert_ne. }
  intros t' Ht'. destruct (decide (name t = name t')) as [He|Hne].
  - assert (t = t') as <- by by apply metadata_name_inj.
    rewrite rows_insert_eq. apply Forall_app. split.
    + eapply Forall_impl; [by apply Hri|]. intros r.
      by apply foreign_keys_ok_mono.
    + constructor; [|constructor]. by eapply foreign_keys_ok_mono.
  - rewrite rows_insert_ne by done.
    eapply Forall_impl; [by apply Hri|]. intros r.
    by apply foreign_keys_ok_mono.
Qed.

Lemma referential_integrity_delete db fuel m p db' :
  m ∈ models -> referential_integrity db ->
  delete_where metadata fuel db (tablename m) p = Some (Ok db') ->
  referential_integrity db'.
Proof.
  intros Hm. rewrite !referential_integrity_tables. intros [Hc Hl].
  revert Hm. unfold models. intros Hm.
  repeat (apply elem_of_cons in Hm as [->|Hm]);
    [| | | |by apply elem_of_nil in Hm]; simpl tablename.
  - (* users *)
    destruct fuel as [|[|[|fuel]]]; [done..|].
    rewrite delete_users. cbv zeta. rewrite delete_courses. cbv zeta.
    intros [= <-].
    repeat first [rewrite rows_insert_eq | rewrite rows_insert_ne by done].
    split.
    + eapply Forall_filter_both; [exact Hc|]. intros r Hr Hok.
      apply parent_ok_cascade; [|done]. by apply negb_true_iff.
    + eapply Forall_filter_both; [exact Hl|]. intros r Hr [Hok1 Hok2].
      split; [|done]. apply parent_ok_cascade; [|done].
      by apply negb_true_iff.
  - (* courses *)
    destruct fuel as [|[|fuel]]; [done..|].
    rewrite delete_courses. cbv zeta. intros [= <-].
    repeat first [rewrite rows_insert_eq | rewrite rows_insert_ne by done].
    split.
    + by apply Forall_filter_bool.
    + eapply Forall_filter_both; [exact Hl|]. intros r Hr [Hok1 Hok2].
      split; [|done]. apply parent_ok_cascade; [|done].
      by apply negb_true_iff.
  - (* videos *)
    destruct fuel as [|[|fuel]]; [done..|].
    rewrite delete_videos. cbv zeta. intros [= <-].
    repeat first [rewrite rows_insert_eq | rewrite rows_insert_ne by done].
    split; [done|].
    eapply Forall_filter_both; [exact Hl|]. intros r Hr [Hok1 Hok2].
    split; [done|]. apply parent_ok_cascade; [|done].
    by apply negb_true_iff.
  - (* videos_courses *)
    destruct fuel as [|fuel]; [done|].
    rewrite delete_videos_courses. intros [= <-].
    repeat first [rewrite rows_insert_eq | rewrite rows_insert_ne by done].
    split; [done|]. by apply Forall_filter_bool.
Qed.

Lemma reachable_referential_integrity db :
  reachable db -> referential_integrity db.
Proof.
  induction 1 as [|db m obj db' _ IH Hm Hins|db fuel m p db' _ IH Hm Hdel].
  - apply referential_integrity_empty.
  - eapply referential_integrity_insert; [|done..]. unfold metadata.
    apply list_elem_of_In, in_map. by apply list_elem_of_In.
  - by eapply referential_integrity_delete.
Qed.

Lemma parent_ok_exists parents col r :
  parent_ok parents col r = true -> get r col <> VNone ->
  exists p, p ∈ parents /\ get p "id" = get r col.
Proof.
  unfold parent_ok. intros [Hn|Hex]%orb_prop Hnn.
  - by destruct (get r col).
  - apply existsb_exists in Hex as (p & Hp & He). exists p.
    split; [by apply list_elem_of_In|]. by apply bool_decide_eq_true_1 in He.
Qed.

(** X8. No reachable store has a dangling reference: every course's
    [creator_id] is the id of a stored user, and every link row's
    [course_id] and [video_id], when not NULL, are the ids of a stored
    course and a stored video.  Inserts check it and the cascading
    deletes keep it. *)
Theorem reachable_references db :
  reachable db ->
  (forall c, c ∈ rows db "courses" ->
     exists u, u ∈ rows db "users" /\ get u "id" = get c "creator_id")
  /\ (forall l, l ∈ rows db "videos_courses" ->
        (get l "course_id" <> VNone ->
         exists c, c ∈ rows db "courses" /\ get c "id" = get l "course_id")
        /\ (get l "video_id" <> VNone ->
            exists v, v ∈ rows db "videos" /\ get v "id" = get l "video_id")).
Proof.
  intros Hr.
  pose proof (reachable_referential_integrity db Hr) as Hri.
  apply referential_integrity_tables in Hri as [Hc Hl].
  rewrite Forall_forall in Hc, Hl. split.
  - intros c Hin. apply (parent_ok_exists _ "creator_id"); [by apply Hc|].
    apply (not_null_required (__table__ Course)); [|done].
    by apply (reachable_not_null db Course); [|in_list|].
  - intros l Hin. destruct (Hl l Hin) as [H1 H2].
    split; intros Hnn; by eapply parent_ok_exists.
Qed.

(** *** Deleting what is not there *)

Lemma filter_none_bool (f : Row -> bool) l :
  (forall x, x ∈ l -> f x = false) -> List.filter f l = [].
Proof.
  intros H. induction l as [|x l IH]; [done|]. simpl.
  rewrite H by (by left). apply IH. intros y Hy. apply H. by right.
Qed.

Lemma filter_all_bool (f : Row -> bool) l :
  (forall x, x ∈ l -> f x = true) -> List.filter f l = l.
Proof.
  intros H. induction l as [|x l IH]; [done|]. simpl.
  rewrite H by (by left). f_equal. apply IH. intros y Hy. apply H. by right.
Qed.

Lemma filter_not_refers_nil ccol pcol l :
  List.filter (fun r => negb (refers [] ccol pcol r)) l = l.
Proof.
  apply filter_all_bool. intros x _. unfold refers. simpl.
  by rewrite andb_false_r.
Qed.

Lemma filter_refers_nil ccol pcol l :
  List.filter (refers [] ccol pcol) l = [].
Proof.
  apply filter_none_bool. intros x _. unfold refers. simpl.
  by rewrite andb_false_r.
Qed.

Lemma rows_insert_same (db : Store) t l tn :
  l = rows db t -> rows (<[t := l]> db) tn = rows db tn.
Proof.
  intros ->. destruct (decide (t = tn)) as [->|Hne].
  - by rewrite rows_insert_eq.
  - by rewrite rows_insert_ne.
Qed.

(** X9. Deleting an id no row has changes nothing: the DELETE succeeds
    and every table keeps its rows, in each of the four tables. *)
Theorem delete_missing_id db m k fuel :
  m ∈ models ->
  (forall r, r ∈ rows db (tablename m) -> get r "id" <> VInt k) ->
  exists db',
    delete_where metadata (3 + fuel) db (tablename m) (has_id k)
    = Some (Ok db')
    /\ forall t, rows db' t = rows db t.
Proof.
  intros Hm Hnone.
  assert (Hvictims : List.filter (has_id k) (rows db (tablename m)) = []).
  { apply filter_none_bool. intros r Hr. apply bool_decide_eq_false_2.
    by apply Hnone. }
  assert (Hkept : List.filter (fun r => negb (has_id k r))
                              (rows db (tablename m))
                  = rows db (tablename m)).
  { apply filter_all_bool. intros r Hr.
    apply negb_true_iff, bool_decide_eq_false_2. by apply Hnone. }
  revert Hm Hvictims Hkept. unfold models. intros Hm.
  repeat (apply elem_of_cons in Hm as [->|Hm]);
    [| | | |by apply elem_of_nil in Hm];
    simpl tablename; simpl Nat.add; intros Hvictims Hkept.
  - rewrite delete_users. cbv zeta. rewrite delete_courses. cbv zeta.
    eexists. split; [reflexivity|]. intros t.
    rewrite Hvictims, filter_refers_nil, !filter_not_refers_nil.
    rewrite (rows_insert_same _ "users");
      rewrite ?(rows_insert_same _ "courses");
      rewrite ?(rows_insert_same _ "videos_courses"); done.
  - rewrite delete_courses. cbv zeta.
    eexists. split; [reflexivity|]. intros t.
    rewrite Hvictims, filter_not_refers_nil.
    rewrite (rows_insert_same _ "courses");
      rewrite ?(rows_insert_same _ "videos_courses"); done.
  - rewrite delete_videos. cbv zeta.
    eexists. split; [reflexivity|]. intros t.
    rewrite Hvictims, filter_not_refers_nil.
    rewrite (rows_insert_same _ "videos");
      rewrite ?(rows_insert_same _ "videos_courses"); done.
  - rewrite delete_videos_courses.
    eexists. split; [reflexivity|]. intros t. by rewrite rows_insert_same.
Qed.

(** ** Signing up and authenticating, continued *)

Lemma not_null_ok_false t r c :
  required t c = true -> get r c = VNone -> not_null_ok t r = false.
Proof.
  intros Hreq Hc. apply not_true_is_false. intros Hnn.
  by apply (not_null_required t r c).
Qed.

Lemma commit_single s m obj :
  new s = [] ->
  commit (add s m obj)
  = match insert (transaction s) (__table__ m) obj with
    | Ok db' => (Ok (), {| database := db'; transaction := db'; new := [] |})
    | Raise e => (Raise e, rollback s)
    end.
Proof.
  intros Hnew. unfold commit, flush, add.
  cbn [new transaction database]. rewrite Hnew.
  cbn [app flush_objects].
  by destruct (insert (transaction s) (__table__ m) obj).
Qed.

Section CredentialExtras.

Variable Salt : Type.
Variable generate_password_hash : Salt -> option string -> result string.
Variable check_password_hash : value -> option string -> result bool.

Local Abbreviation signup' := (signup Salt generate_password_hash).
Local Abbreviation authenticate' := (authenticate check_password_hash).

(** X10. [signup] does not validate its arguments: with [None] for the
    username, the email or one of the names it still returns a user,
    and the failure comes at commit, as a NOT NULL violation that rolls
    the session back. *)
Theorem signup_missing_field salt s email username password first_name
    last_name image_url user s1 :
  new s = [] ->
  signup' salt s email username password first_name last_name image_url
  = (Ok user, s1) ->
  username = None \/ email = None \/ first_name = None \/ last_name = None ->
  commit s1 = (Raise (IntegrityError NotNullViolation), rollback s).
Proof.
  intros Hnew (h & _ & -> & _ & ->)%signup_Ok_inv Hmissing.
  rewrite commit_single by done. unfold insert.
  assert (forall c v, plain_column (__table__ User) c = true ->
            required (__table__ User) c = true ->
            get (list_to_map
                   [("username", of_text username);
                    ("password", VStr (decode h));
                    ("first_name", of_text first_name);
                    ("last_name", of_text last_name);
                    ("image_url", of_text image_url);
                    ("email", of_text email)] : Row) c = of_text v ->
            v = None ->
            not_null_ok (__table__ User)
              (insert_row (__table__ User)
                 (rows (transaction s) (name (__table__ User)))
                 (list_to_map
                   [("username", of_text username);
                    ("password", VStr (decode h));
                    ("first_name", of_text first_name);
                    ("last_name", of_text last_name);
                    ("image_url", of_text image_url);
                    ("email", of_text email)])) = false) as Hnull.
  { intros c v Hplain Hreq Hget ->.
    apply (not_null_ok_false _ _ c); [done|].
    by rewrite get_insert_row_plain, Hget. }
  destruct Hmissing as [Hm|[Hm|[Hm|Hm]]].
  - by rewrite (Hnull "username" username).
  - by rewrite (Hnull "email" email).
  - by rewrite (Hnull "first_name" first_name).
  - by rewrite (Hnull "last_name" last_name).
Qed.


(** What a commit right after [signup] stored. *)
Lemma signup_commit_inv salt s email username password first_name last_name
    image_url user s1 s2 :
  signup' salt s email username password first_name last_name image_url
  = (Ok user, s1) ->
  commit s1 = (Ok (), s2) ->
  exists db0 r,
    r = insert_row (__table__ User) (rows db0 "users") user
    /\ rows (database s2) "users" = rows db0 "users" ++ [r]
    /\ transaction s2 = database s2 /\ new s2 = []
    /\ not_null_ok (__table__ User) r = true
    /\ (forall r' key, r' ∈ rows db0 "users" ->
                       key ∈ unique_keys (__table__ User) ->
                       key_conflict key r r' = false).
Proof.
  intros (h & _ & _ & _ & ->)%signup_Ok_inv Hcommit.
  unfold commit in Hcommit.
  destruct (flush (add s User user)) as [[[]|e] s'] eqn:Hflush; [|done].
  injection Hcommit as <-.
  apply flush_add_inv in Hflush as (_ & _ & db0 & _ & Hins).
  apply insert_stored in Hins as (r & Hr & Hrows & Hnn & _ & Hfresh).
  by exists db0, r.
Qed.

(** X11. What a commit stores for a user made by [signup]: the row is
    the last of [users], it has a generated integer id that no other row
    of the table has, the hash as its password, and as image URL the one
    given, or the default picture when [None] was given. *)
Theorem signup_commit_stored_row salt s email username password first_name
    last_name image_url user s1 s2 :
  signup' salt s email username password first_name last_name image_url
  = (Ok user, s1) ->
  commit s1 = (Ok (), s2) ->
  exists r k rest,
    rows (database s2) "users" = rest ++ [r]
    /\ get r "id" = VInt k
    /\ (forall r', r' ∈ rest -> get r' "id" <> VInt k)
    /\ get r "password" = get user "password"
    /\ get r "image_url"
       = VStr (from_option id "/static/images/default-pic.png" image_url).
Proof.
  intros Hsignup Hcommit.
  destruct (signup_commit_inv _ _ _ _ _ _ _ _ _ _ _ Hsignup Hcommit)
    as (db0 & r & Hr & Hrows & _ & _ & _ & _).
  apply signup_Ok_inv in Hsignup as (h & _ & Huser & _ & _).
  exists r, (next_id "id" (rows db0 "users")), (rows db0 "users").
  assert (Hid : get r "id" = VInt (next_id "id" (rows db0 "users"))).
  { rewrite Hr. eapply generated_id; [reflexivity|done..|by rewrite Huser]. }
  split; [done|]. split; [done|]. split; [|split].
  - intros r' Hr' He.
    apply (next_id_fresh "id" (rows db0 "users") r') in He; [lia|done].
  - rewrite Hr. by rewrite get_insert_row_plain.
  - rewrite Hr, get_insert_row, Huser. by destruct image_url.
Qed.


(** X13. [authenticate] never commits: whatever it returns, raising
    included, the committed store is what it was; and on a session with
    nothing pending the whole session is. *)
Theorem authenticate_read_only (s : Session) username password :
  database (authenticate' s username password).2 = database s
  /\ (new s = [] -> (authenticate' s username password).2 = s).
Proof.
  unfold authenticate, query_filter_by_first, flush. split.
  - destruct (flush_objects (transaction s) (new s)); [|done].
    destruct (head _); [|done]. by destruct (check_password_hash _ _) as [[]|].
  - intros Hnew. rewrite Hnew. cbn [flush_objects].
    destruct s as [d t n]. simpl in *. subst n.
    destruct (head _); [|done]. by destruct (check_password_hash _ _) as [[]|].
Qed.

(** X14. After [signup] and a commit, the user's name with a password
    the library does not accept for the stored hash is refused:
    [authenticate] returns [False]. *)
Theorem signup_commit_wrong_password salt s email username password
    first_name last_name image_url user s1 s2 guess :
  signup' salt s email username password first_name last_name image_url
  = (Ok user, s1) ->
  commit s1 = (Ok (), s2) ->
  check_password_hash (get user "password") guess = Ok false ->
  authenticate' s2 username guess = (Ok AuthFalse, s2).
Proof.
  intros Hsignup Hcommit Hcheck.
  destruct (signup_commit_inv _ _ _ _ _ _ _ _ _ _ _ Hsignup Hcommit)
    as (db0 & r & Hr & Hrows & Htx & Hnew & Hnn & Hfresh).
  apply signup_Ok_inv in Hsignup as (h & _ & Huser & _ & _).
  assert (Hname : get r "username" = of_text username).
  { rewrite Hr, get_insert_row_plain by done. by rewrite Huser. }
  assert (Hflush : flush s2 = (Ok (), s2)).
  { unfold flush. rewrite Hnew. cbn [flush_objects].
    destruct s2 as [d t n]. simpl in *. by subst. }
  rewrite (authenticate_found check_password_hash s2 s2 username guess r
             Hflush).
  - rewrite Hr, get_insert_row_plain by done. by rewrite Hcheck.
  - rewrite Htx, Hrows. apply elem_of_app. right. by left.
  - done.
  - rewrite Htx, Hrows. intros u' [Hu'|Hu']%elem_of_app Hname'.
    + exfalso.
      assert (key_conflict ["username"] r u' = false) as Hc.
      { apply Hfresh; [done|]. vm_compute unique_keys. in_list. }
      rewrite key_conflict_true in Hc; [done|].
      intros c Hc'. apply elem_of_cons in Hc' as [->|Hc'];
        [|by apply elem_of_nil in Hc'].
      split; [congruence|]. by eapply not_null_required.
    + apply elem_of_cons in Hu' as [->|Hu']; [done|].
      by apply elem_of_nil in Hu'.
Qed.

(** X15. A deleted user can no longer log in: on a reachable store,
    once the row of a user is deleted by id, [authenticate] with that
    user's name returns [False] for every password. *)
Theorem deleted_user_cannot_authenticate db u k username fuel db' password :
  reachable db ->
  u ∈ rows db "users" -> get u "id" = VInt k ->
  get u "username" = VStr username ->
  delete_where metadata (3 + fuel) db "users" (has_id k) = Some (Ok db') ->
  authenticate' (session_on db') (Some username) password
  = (Ok AuthFalse, session_on db').
Proof.
  intros Hreach Hu Hid Hname Hdel.
  assert (Husers : rows db' "users" = without "id" k (rows db "users")).
  { simpl Nat.add in Hdel. rewrite delete_users in Hdel. cbv zeta in Hdel.
    rewrite delete_courses in Hdel. cbv zeta in Hdel.
    injection Hdel as <-.
    by repeat first [rewrite rows_insert_eq | rewrite rows_insert_ne by done]. }
  apply authenticate_unknown; [done|].
  cbn [session_on transaction]. rewrite Husers. intros u' Hu' Hname'.
  apply list_elem_of_In, filter_In in Hu' as [Hu' Hkeep].
  apply list_elem_of_In in Hu'.
  apply negb_true_iff, bool_decide_eq_false_1 in Hkeep.
  apply list_elem_of_lookup_1 in Hu as [i Hi].
  apply list_elem_of_lookup_1 in Hu' as [j Hj].
  assert (j = i) as ->.
  { apply (reachable_key_unique db User ["username"] j i u' u);
      [done|in_list| |done..|].
    - vm_compute unique_keys. in_list.
    - intros c Hc. apply elem_of_cons in Hc as [->|Hc];
        [|by apply elem_of_nil in Hc].
      simpl in Hname'. by rewrite Hname', Hname. }
  congruence.
Qed.

End CredentialExtras.

(** ** The further properties on the stand-in *)


Lemma User_repr_identifies_witness :
  User__repr__ Standin.ann_row <> User__repr__ Standin.ann_row_2.
Proof.
  apply (User_repr_identifies Standin.ann_row Standin.ann_row_2 1 2);
    [reflexivity|reflexivity|lia].
Defined.

Lemma Course_repr_identifies_witness :
  Course__repr__ (Standin.course_row 1) <> Course__repr__ (Standin.course_row 2).
Proof.
  apply (Course_repr_identifies (Standin.course_row 1) (Standin.course_row 2)
           1 2); [reflexivity|reflexivity|lia].
Defined.

Lemma reachable_primary_keys_witness :
  get (insert_row (__table__ Video) [] (Standin.video "Intro")) "id" <> VNone.
Proof.
  apply (reachable_primary_keys Standin.library Video 0%nat 1%nat
           (insert_row (__table__ Video) [] (Standin.video "Intro"))
           (insert_row (__table__ Video)
              [insert_row (__table__ Video) [] (Standin.video "Intro")]
              (Standin.video "Tactics")) library_reachable).
  - in_list.
  - reflexivity.
  - reflexivity.
Defined.

Lemma insert_dangling_reference_witness :
  exists e, insert Standin.library (__table__ Course) (Standin.course "Logic" 7)
            = Raise (IntegrityError e).
Proof.
  apply (insert_dangling_reference Standin.library (Standin.course "Logic" 7) 7).
  - reflexivity.
  - rewrite library_users. intros u Hu.
    apply elem_of_cons in Hu as [->|Hu]; [|by apply elem_of_nil in Hu].
    intros He. vm_compute in He. discriminate He.
Defined.




Lemma reachable_references_witness :
  (forall c, c ∈ rows Standin.library "courses" ->
     exists u, u ∈ rows Standin.library "users"
               /\ get u "id" = get c "creator_id")
  /\ (forall l, l ∈ rows Standin.library "videos_courses" ->
        (get l "course_id" <> VNone ->
         exists c, c ∈ rows Standin.library "courses"
                   /\ get c "id" = get l "course_id")
        /\ (get l "video_id" <> VNone ->
            exists v, v ∈ rows Standin.library "videos"
                      /\ get v "id" = get l "video_id")).
Proof. apply (reachable_references Standin.library library_reachable). Defined.

Lemma delete_missing_id_witness :
  exists db',
    delete_where metadata 3 Standin.library "users" (has_id 9) = Some (Ok db')
    /\ forall t, rows db' t = rows Standin.library t.
Proof.
  apply (delete_missing_id Standin.library User 9 0); [in_list|].
  simpl tablename. rewrite library_users. intros u Hu.
  apply elem_of_cons in Hu as [->|Hu]; [|by apply elem_of_nil in Hu].
  intros He. vm_compute in He. discriminate He.
Defined.

Lemma signup_missing_field_witness :
  commit (add Standin.session0 User Standin.nameless)
  = (Raise (IntegrityError NotNullViolation), rollback Standin.session0).
Proof.
  apply (signup_missing_field ascii Standin.generate_password_hash
           "s"%char Standin.session0 (Some "ann@example.org") None
           (Some "secret") (Some "Ann") (Some "Lee") None Standin.nameless
           (add Standin.session0 User Standin.nameless)).
  - reflexivity.
  - reflexivity.
  - by left.
Defined.

Lemma signup_commit_stored_row_witness :
  exists r k rest,
    rows (database Standin.session_ann) "users" = rest ++ [r]
    /\ get r "id" = VInt k
    /\ (forall r', r' ∈ rest -> get r' "id" <> VInt k)
    /\ get r "password" = get Standin.ann "password"
    /\ get r "image_url" = VStr "/static/images/default-pic.png".
Proof.
  apply (signup_commit_stored_row ascii Standin.generate_password_hash
           "s"%char Standin.session0 (Some "ann@example.org") (Some "ann")
           (Some "secret") (Some "Ann") (Some "Lee") None Standin.ann
           (add Standin.session0 User Standin.ann) Standin.session_ann);
    reflexivity.
Defined.


Lemma authenticate_read_only_witness :
  (authenticate Standin.check_password_hash Standin.session_ann
                (Some "ann") (Some "secret")).2
  = Standin.session_ann.
Proof.
  apply (authenticate_read_only Standin.check_password_hash
           Standin.session_ann (Some "ann") (Some "secret")).
  reflexivity.
Defined.

Lemma signup_commit_wrong_password_witness :
  authenticate Standin.check_password_hash Standin.session_ann
               (Some "ann") (Some "guess")
  = (Ok AuthFalse, Standin.session_ann).
Proof.
  apply (signup_commit_wrong_password ascii Standin.generate_password_hash
           Standin.check_password_hash
           "s"%char Standin.session0 (Some "ann@example.org") (Some "ann")
           (Some "secret") (Some "Ann") (Some "Lee") None Standin.ann
           (add Standin.session0 User Standin.ann) Standin.session_ann
           (Some "guess")); reflexivity.
Defined.

Lemma deleted_user_cannot_authenticate_witness :
  authenticate Standin.check_password_hash (session_on Standin.db_deleted)
               (Some "ann") (Some "secret")
  = (Ok AuthFalse, session_on Standin.db_deleted).
Proof.
  apply (deleted_user_cannot_authenticate Standin.check_password_hash
           Standin.library Standin.ann_row 1 "ann" 0 Standin.db_deleted
           (Some "secret") library_reachable).
  - rewrite library_users. in_list.
  - reflexivity.
  - reflexivity.
  - reflexivity.
Defined.
